(** * Vault semantic search (skills/vault-search/scripts/search.py)

    A shallow embedding of [search]: the statement it sends to SQLite
    (nearest chunks of the vector index, left join with the notes, the
    optional filters, the final ordering), the window it asks the index for,
    and the results it builds from the rows, with the state of the database
    connection on every way out; and of [format_results], the text view of
    the results. The folder is written into the statement between two quotes:
    where it has a quote of its own, the statement is read from its text. *)

From Stdlib Require Import String Ascii.
From Stdlib Require DecimalString.
From Stdlib Require Import List Bool Arith NArith ZArith QArith Lia ZifyBool Sorted.
From Stdlib Require Import Permutation.
Import ListNotations.

Local Open Scope nat_scope.

(** ** Python strings *)

(** A Python [str] is a sequence of code points. *)
Definition pystr := list N.

(** The [str] of an ASCII literal. *)
Definition py (s : string) : pystr :=
  map N_of_ascii (list_ascii_of_string s).

Fixpoint str_eqb (a b : pystr) : bool :=
  match a, b with
  | [], [] => true
  | x :: a', y :: b' => N.eqb x y && str_eqb a' b'
  | _, _ => false
  end.

(** [s.startswith(p)] *)
Fixpoint startswith (s p : pystr) {struct p} : bool :=
  match p, s with
  | [], _ => true
  | x :: p', y :: s' => N.eqb x y && startswith s' p'
  | _ :: _, [] => false
  end.

(** [s.endswith(p)] *)
Definition endswith (s p : pystr) : bool :=
  (length p <=? length s) && str_eqb (skipn (length s - length p) s) p.

(** [bool(s)] for an optional string argument: [None] and the empty string
    are false. *)
Definition truthy (s : option pystr) : bool :=
  match s with
  | Some (_ :: _) => true
  | _ => false
  end.

(** ** json.loads

    The decoder of the standard library (json/decoder.py, json/scanner.py):
    [JSONDecodeError] is [Stop]. A [float] is kept as the text of its literal;
    the depth of nesting and the length of an integer are not bounded.
    Recursion is on fuel; [Fuel] is the answer of a call that ran out of it,
    which [loads] never does (lemma [raw_decode_fuel]). *)

#[warnings="-register-all"]
Inductive pyvalue : Type :=
| PyNone
| PyBool (b : bool)
| PyInt (z : Z)
| PyFloat (literal : pystr)
| PyStr (s : pystr)
| PyList (items : list pyvalue)
| PyDict (pairs : list (pystr * pyvalue)).

Inductive scan (A : Type) : Type :=
| Ok (a : A) (rest : pystr)
| Stop
| Fuel.
Arguments Ok {A} a rest.
Arguments Stop {A}.
Arguments Fuel {A}.

Definition scan_bind {A B} (x : scan A) (k : A -> pystr -> scan B) : scan B :=
  match x with
  | Ok a rest => k a rest
  | Stop => Stop
  | Fuel => Fuel
  end.

Notation "'do' ( a , r ) <- x ; k" := (scan_bind x (fun a r => k))
  (at level 10, a name, r name, x at level 100, k at level 200).

Definition is_ws (c : N) : bool :=
  (c =? 32)%N || (c =? 9)%N || (c =? 10)%N || (c =? 13)%N.

(** [WHITESPACE.match(s, end).end()] *)
Fixpoint skip_ws (s : pystr) : pystr :=
  match s with
  | c :: t => if is_ws c then skip_ws t else s
  | [] => []
  end.

Definition is_digit (c : N) : bool := (48 <=? c)%N && (c <=? 57)%N.

Definition hexval (c : N) : option N :=
  if is_digit c then Some (c - 48)%N
  else if (97 <=? c)%N && (c <=? 102)%N then Some (c - 87)%N
  else if (65 <=? c)%N && (c <=? 70)%N then Some (c - 55)%N
  else None.

(** [_decode_uXXXX]: four hexadecimal digits. *)
Definition decode_uXXXX (s : pystr) : option (N * pystr) :=
  match s with
  | a :: b :: c :: d :: t =>
      match hexval a, hexval b, hexval c, hexval d with
      | Some x, Some y, Some z, Some w =>
          Some (4096 * x + 256 * y + 16 * z + w, t)%N
      | _, _, _, _ => None
      end
  | _ => None
  end.

(** The table [BACKSLASH] of the one-letter escapes. *)
Definition BACKSLASH (esc : N) : option N :=
  if (esc =? 34)%N then Some 34%N
  else if (esc =? 92)%N then Some 92%N
  else if (esc =? 47)%N then Some 47%N
  else if (esc =? 98)%N then Some 8%N
  else if (esc =? 102)%N then Some 12%N
  else if (esc =? 110)%N then Some 10%N
  else if (esc =? 114)%N then Some 13%N
  else if (esc =? 116)%N then Some 9%N
  else None.

Definition is_high_surrogate (c : N) : bool := (55296 <=? c)%N && (c <=? 56319)%N.
Definition is_low_surrogate (c : N) : bool := (56320 <=? c)%N && (c <=? 57343)%N.

Definition join_surrogates (uni uni2 : N) : N :=
  (65536 + N.lor (N.shiftl (uni - 55296) 10) (uni2 - 56320))%N.

Definition push (c : N) (x : scan pystr) : scan pystr :=
  do (s, r) <- x; Ok (c :: s) r.

(** [scanstring(s, end)], strict: from the character after the opening quote
    to the closing one. *)
Fixpoint scanstring (fuel : nat) (s : pystr) : scan pystr :=
  match fuel with
  | O => Fuel
  | S fuel' =>
      match s with
      | [] => Stop
      | c :: t =>
          if (c =? 34)%N then Ok [] t
          else if (c =? 92)%N then
            match t with
            | [] => Stop
            | esc :: t1 =>
                if (esc =? 117)%N then
                  match decode_uXXXX t1 with
                  | None => Stop
                  | Some (uni, t2) =>
                      if is_high_surrogate uni && startswith t2 [92; 117]%N then
                        match decode_uXXXX (skipn 2 t2) with
                        | None => Stop
                        | Some (uni2, t3) =>
                            if is_low_surrogate uni2
                            then push (join_surrogates uni uni2) (scanstring fuel' t3)
                            else push uni (scanstring fuel' t2)
                        end
                      else push uni (scanstring fuel' t2)
                  end
                else
                  match BACKSLASH esc with
                  | None => Stop
                  | Some char => push char (scanstring fuel' t1)
                  end
            end
          else if (c <? 32)%N then Stop
          else push c (scanstring fuel' t)
      end
  end.

Fixpoint span_digits (s : pystr) : pystr * pystr :=
  match s with
  | c :: t =>
      if is_digit c then let (ds, r) := span_digits t in (c :: ds, r)
      else ([], s)
  | [] => ([], [])
  end.

(** [int(digits)] *)
Definition int_of_digits (ds : pystr) : Z :=
  fold_left (fun acc c => 10 * acc + Z.of_N (c - 48))%Z ds 0%Z.

(** The integer part of [NUMBER_RE]: an optional minus sign, then a single
    zero or a digit from 1 to 9 followed by digits. *)
Definition match_digits (sign s : pystr) : option (pystr * pystr) :=
  match s with
  | c :: t =>
      if (c =? 48)%N then Some (sign ++ [c], t)
      else if is_digit c then
        let (ds, r) := span_digits t in Some (sign ++ c :: ds, r)
      else None
  | [] => None
  end.

Definition match_integer (s : pystr) : option (pystr * pystr) :=
  match s with
  | c :: t => if (c =? 45)%N then match_digits [c] t else match_digits [] s
  | [] => None
  end.

(** The fraction of [NUMBER_RE]: a point and at least one digit, or nothing. *)
Definition match_frac (s : pystr) : pystr * pystr :=
  match s with
  | c :: t =>
      if (c =? 46)%N then
        match span_digits t with
        | ([], _) => ([], s)
        | (ds, r) => (c :: ds, r)
        end
      else ([], s)
  | [] => ([], s)
  end.

(** The exponent of [NUMBER_RE]: e or E, an optional sign and at least one
    digit, or nothing. *)
Definition match_exp_digits (s mark t : pystr) : pystr * pystr :=
  match span_digits t with
  | ([], _) => ([], s)
  | (ds, r) => (mark ++ ds, r)
  end.

Definition match_exp (s : pystr) : pystr * pystr :=
  match s with
  | c :: t =>
      if (c =? 101)%N || (c =? 69)%N then
        match t with
        | d :: t' =>
            if (d =? 45)%N || (d =? 43)%N then match_exp_digits s [c; d] t'
            else match_exp_digits s [c] t
        | [] => ([], s)
        end
      else ([], s)
  | [] => ([], s)
  end.

(** A number: an [int] when it has neither fraction nor exponent, else the
    [float] of the literal, kept as its text. *)
Definition match_number (s : pystr) : option (pyvalue * pystr) :=
  match match_integer s with
  | None => None
  | Some (integer, r) =>
      let (frac, r1) := match_frac r in
      let (exp, r2) := match_exp r1 in
      match frac, exp with
      | [], [] =>
          Some (PyInt (match integer with
                       | c :: ds =>
                           if (c =? 45)%N then (- int_of_digits ds)%Z
                           else int_of_digits integer
                       | [] => 0%Z
                       end), r2)
      | _, _ => Some (PyFloat (integer ++ frac ++ exp), r2)
      end
  end.

(** [dict(pairs)]: a key seen again keeps its place and takes the new value. *)
Fixpoint dict_set (k : pystr) (v : pyvalue) (d : list (pystr * pyvalue)) :
  list (pystr * pyvalue) :=
  match d with
  | [] => [(k, v)]
  | (k', v') :: d' =>
      if str_eqb k' k then (k', v) :: d' else (k', v') :: dict_set k v d'
  end.

Definition dict_of_pairs (pairs : list (pystr * pyvalue)) : list (pystr * pyvalue) :=
  fold_left (fun d kv => dict_set (fst kv) (snd kv) d) pairs [].

(** The constants [scan_once] tries after a number has not matched. *)
Definition match_constant (s : pystr) : scan pyvalue :=
  if startswith s (py "NaN") then Ok (PyFloat (py "NaN")) (skipn 3 s)
  else if startswith s (py "Infinity") then Ok (PyFloat (py "Infinity")) (skipn 8 s)
  else if startswith s (py "-Infinity") then Ok (PyFloat (py "-Infinity")) (skipn 9 s)
  else Stop.

(** [scan_once], with [JSONArray] ([array_items]: the loop after the first
    value has been found not to be the closing bracket) and [JSONObject]
    ([object_pairs]: the loop, from the character after a key's opening
    quote). *)
Fixpoint scan_once (fuel : nat) (s : pystr) : scan pyvalue :=
  match fuel with
  | O => Fuel
  | S fuel' =>
      match s with
      | [] => Stop
      | c :: t =>
          if (c =? 34)%N then
            do (str, r) <- scanstring (S (length t)) t; Ok (PyStr str) r
          else if (c =? 123)%N then
            let t1 := skip_ws t in
            match t1 with
            | [] => Stop
            | c1 :: t2 =>
                if (c1 =? 125)%N then Ok (PyDict []) t2
                else if (c1 =? 34)%N then
                  do (pairs, r) <- object_pairs fuel' t2;
                  Ok (PyDict (dict_of_pairs pairs)) r
                else Stop
            end
          else if (c =? 91)%N then
            let t1 := skip_ws t in
            match t1 with
            | [] => Stop
            | c1 :: t2 =>
                if (c1 =? 93)%N then Ok (PyList []) t2
                else do (items, r) <- array_items fuel' t1; Ok (PyList items) r
            end
          else if startswith s (py "null") then Ok PyNone (skipn 4 s)
          else if startswith s (py "true") then Ok (PyBool true) (skipn 4 s)
          else if startswith s (py "false") then Ok (PyBool false) (skipn 5 s)
          else
            match match_number s with
            | Some (v, r) => Ok v r
            | None => match_constant s
            end
      end
  end
with array_items (fuel : nat) (s : pystr) : scan (list pyvalue) :=
  match fuel with
  | O => Fuel
  | S fuel' =>
      do (value, r) <- scan_once fuel' s;
      match skip_ws r with
      | [] => Stop
      | c :: r1 =>
          if (c =? 93)%N then Ok [value] r1
          else if (c =? 44)%N then
            do (values, r2) <- array_items fuel' (skip_ws r1);
            Ok (value :: values) r2
          else Stop
      end
  end
with object_pairs (fuel : nat) (s : pystr) : scan (list (pystr * pyvalue)) :=
  match fuel with
  | O => Fuel
  | S fuel' =>
      do (key, r) <- scanstring (S (length s)) s;
      match skip_ws r with
      | [] => Stop
      | c :: r1 =>
          if (c =? 58)%N then
            do (value, r2) <- scan_once fuel' (skip_ws r1);
            match skip_ws r2 with
            | [] => Stop
            | c2 :: r3 =>
                if (c2 =? 125)%N then Ok [(key, value)] r3
                else if (c2 =? 44)%N then
                  match skip_ws r3 with
                  | [] => Stop
                  | c3 :: r4 =>
                      if (c3 =? 34)%N then
                        do (pairs, r5) <- object_pairs fuel' r4;
                        Ok ((key, value) :: pairs) r5
                      else Stop
                  end
                else Stop
            end
          else Stop
      end
  end.

(** [JSONDecoder.decode]: one value between optional whitespace, and nothing
    after it. *)
Definition raw_decode (s : pystr) : scan pyvalue :=
  scan_once (2 * length s + 2) (skip_ws s).

(** [json.loads(s)]; [None] when it raises [JSONDecodeError]. *)
Definition loads (s : pystr) : option pyvalue :=
  match raw_decode s with
  | Ok obj r => match skip_ws r with [] => Some obj | _ :: _ => None end
  | _ => None
  end.

(** A scan that did not run out of fuel, and left less than [bound]
    characters if it found what it looked for. *)
Definition fine {A} (bound : nat) (x : scan A) : Prop :=
  match x with
  | Ok _ r => length r < bound
  | Stop => True
  | Fuel => False
  end.


(** ** json.dumps of a list of strings

    The encoder of the standard library (json/encoder.py) on a list of [str],
    with its options [ensure_ascii] and the item separator. *)

Definition hexdigit (d : N) : N :=
  if (d <? 10)%N then (48 + d)%N else (87 + d)%N.

(** Four hexadecimal digits, for a number below 65536. *)
Definition hex4 (x : N) : pystr :=
  [hexdigit ((x / 4096) mod 16); hexdigit ((x / 256) mod 16);
   hexdigit ((x / 16) mod 16); hexdigit (x mod 16)]%N.

Definition escape_u (x : N) : pystr := [92; 117]%N ++ hex4 x.

(** The one-letter escapes of [ESCAPE_DCT]. *)
Definition short_escape (ch : N) : option pystr :=
  if (ch =? 92)%N then Some [92; 92]%N
  else if (ch =? 34)%N then Some [92; 34]%N
  else if (ch =? 8)%N then Some [92; 98]%N
  else if (ch =? 12)%N then Some [92; 102]%N
  else if (ch =? 10)%N then Some [92; 110]%N
  else if (ch =? 13)%N then Some [92; 114]%N
  else if (ch =? 9)%N then Some [92; 116]%N
  else None.

Definition encode_char (ensure_ascii : bool) (ch : N) : pystr :=
  match short_escape ch with
  | Some e => e
  | None =>
      if (ch <? 32)%N then escape_u ch
      else if ensure_ascii && (126 <? ch)%N then
        if (ch <? 65536)%N then escape_u ch
        else
          let x := (ch - 65536)%N in
          escape_u (N.lor 55296 (N.land (N.shiftr x 10) 1023))
          ++ escape_u (N.lor 56320 (N.land x 1023))
      else [ch]
  end.

Definition encode_basestring (ensure_ascii : bool) (s : pystr) : pystr :=
  [34%N] ++ flat_map (encode_char ensure_ascii) s ++ [34%N].

(** [sep.join(l)] *)
Fixpoint join (sep : pystr) (l : list pystr) : pystr :=
  match l with
  | [] => []
  | x :: l' =>
      match l' with
      | [] => x
      | _ :: _ => x ++ sep ++ join sep l'
      end
  end.

(** Modelled from the spec: the indexer, which writes the column [tags], is
    not among the sources. The spec has the tags stored as a serialized list,
    and [search] reads them with [json.loads]: the text stored for a list of
    tags is taken to be what [json.dumps] gives for it. *)
Definition dumps_tags (ensure_ascii : bool) (item_separator : pystr)
  (tags : list pystr) : pystr :=
  [91%N] ++ join item_separator (map (encode_basestring ensure_ascii) tags) ++ [93%N].

(** A code point of a text: below 1114112 and no surrogate. *)
Definition scalar (ch : N) : bool :=
  (ch <? 55296)%N || ((57343 <? ch)%N && (ch <? 1114112)%N).

(** ** The database

    The two tables the statement reads. [vec_chunks] is the vector index, one
    row per chunk, with embeddings of [dim] numbers; [notes] holds the metadata
    of a document, a text or NULL in each column. A float is the rational it
    stands for. *)

Record chunk : Type := {
  v_chunk_id : Z;
  v_path : pystr;
  v_heading : option pystr;
  v_chunk_text : pystr;
  v_embedding : list Q
}.

Record note : Type := {
  n_path : pystr;
  n_title : option pystr;
  n_folder : option pystr;
  n_status : option pystr;
  n_priority : option pystr;
  n_due : option pystr;
  n_tags : option pystr
}.

Record database : Type := {
  dim : nat;
  vec_chunks : list chunk;
  notes : list note
}.

(** A row of the inner SELECT, alias [c]. *)
Record candidate : Type := {
  c_chunk_id : Z;
  c_path : pystr;
  c_heading : option pystr;
  c_chunk_text : pystr;
  c_distance : Q
}.

(** A row of the statement: the columns of [c] and, where a note has the
    path, the columns of [n]; NULL in them where none has. *)
Record row : Type := {
  of_c : candidate;
  of_n : option note
}.

Definition ncol (column : note -> option pystr) (r : row) : option pystr :=
  match of_n r with
  | Some x => column x
  | None => None
  end.

(** ** SQLite *)

(** ORDER BY distance: an insertion sort on the key; rows of equal distance
    stay in the order they came in. *)
Fixpoint insert_by {A} (key : A -> Q) (x : A) (l : list A) : list A :=
  match l with
  | [] => [x]
  | y :: l' =>
      if Qle_bool (key x) (key y) then x :: y :: l'
      else y :: insert_by key x l'
  end.

Definition order_by {A} (key : A -> Q) (l : list A) : list A :=
  fold_right (insert_by key) [] l.

(** Where SQL leaves the order of rows open (the rows of a join, chunks at the
    same distance), the engine has an order of its own: the same rows, arranged
    some way. *)
Record reorder (A : Type) : Type := {
  arrange : list A -> list A;
  arrange_perm : forall l, Permutation (arrange l) l
}.
Arguments arrange {A} _ _.
Arguments arrange_perm {A} _ _.

(** LIKE as SQLite has it: [%] is any run of characters, [_] any one
    character, and the letters of ASCII match without regard to case. *)
Definition lower (ch : N) : N :=
  if (65 <=? ch)%N && (ch <=? 90)%N then (ch + 32)%N else ch.

Fixpoint like (pattern : pystr) : pystr -> bool :=
  match pattern with
  | [] => fun s => match s with [] => true | _ :: _ => false end
  | p :: pattern' =>
      if (p =? 37)%N then
        fix any (s : pystr) : bool :=
          like pattern' s || match s with [] => false | _ :: s' => any s' end
      else if (p =? 95)%N then
        fun s => match s with [] => false | _ :: s' => like pattern' s' end
      else
        fun s =>
          match s with
          | [] => false
          | x :: s' => (lower p =? lower x)%N && like pattern' s'
          end
  end.

(** The bytes a text takes in UTF-8, and the longest pattern LIKE works on
    (SQLITE_MAX_LIKE_PATTERN_LENGTH); a longer one is an error when LIKE is
    called. *)
Definition utf8_width (ch : N) : N :=
  if (ch <? 128)%N then 1
  else if (ch <? 2048)%N then 2
  else if (ch <? 65536)%N then 3
  else 4.

Definition utf8_length (s : pystr) : N :=
  fold_right (fun ch n => utf8_width ch + n)%N 0%N s.

Definition like_pattern_max : N := 50000.

(** The text a string literal stands for when [body] is put between two
    quotes: a doubled quote is one quote. [None] when the body does not stay
    inside its literal (a single quote ends it early), or holds the character
    of code 0. *)
Fixpoint sql_literal (body : pystr) : option pystr :=
  match body with
  | [] => Some []
  | x :: t =>
      if (x =? 0)%N then None
      else if (x =? 39)%N then
        match t with
        | y :: t' =>
            if (y =? 39)%N then option_map (cons x) (sql_literal t') else None
        | [] => None
        end
      else option_map (cons x) (sql_literal t)
  end.

(** What a conjunct of the WHERE clause is to SQLite: a condition on the rows,
    with the three truth values of SQL ([None] is NULL); text SQLite refuses
    when it prepares the statement ([sqlite3.Error]); or text that is given no
    meaning here: text that leaves the place the code put it in (the literal
    of LIKE, the parentheses), or a condition that fails while it is
    evaluated. *)
Inductive compiled : Type :=
| Pred (p : row -> option bool)
| Rejected
| Unmodelled.

(** The elements of [where_clauses]. *)
Inductive clause : Type :=
| FolderLike (folder : pystr)
| Paren (text : pystr).

(** NOT, AND and OR of SQL. *)
Definition not3 (a : option bool) : option bool := option_map negb a.

Definition and3 (a b : option bool) : option bool :=
  match a, b with
  | Some false, _ | _, Some false => Some false
  | Some true, Some true => Some true
  | _, _ => None
  end.

Definition or3 (a b : option bool) : option bool :=
  match a, b with
  | Some true, _ | _, Some true => Some true
  | Some false, Some false => Some false
  | _, _ => None
  end.

Definition conj (a b : compiled) : compiled :=
  match a, b with
  | Unmodelled, _ | _, Unmodelled => Unmodelled
  | Rejected, _ | _, Rejected => Rejected
  | Pred p, Pred q => Pred (fun r => and3 (p r) (q r))
  end.

(** WHERE keeps the rows on which the condition is true. *)
Definition holds (p : row -> option bool) (r : row) : bool :=
  match p r with
  | Some true => true
  | _ => false
  end.

(** LEFT JOIN notes n ON c.path = n.path *)
Definition left_join (cs : list candidate) (ns : list note) : list row :=
  flat_map
    (fun x =>
       match filter (fun y => str_eqb (c_path x) (n_path y)) ns with
       | [] => [{| of_c := x; of_n := None |}]
       | ys => map (fun y => {| of_c := x; of_n := Some y |}) ys
       end)
    cs.

(** ** The statement as SQLite reads it

    The code puts the folder between two quotes and escapes nothing. A folder
    text with a quote of its own ends the literal early, and what follows the
    quote is read as SQL. The reader below follows SQLite's tokenizer
    (tokenize.c) on the characters it knows and a small part of the grammar:
    conditions of literals, the text columns of [c] and [n], [=], LIKE, IS
    NULL, NOT, AND, OR and parentheses; one ORDER BY on [c.distance]; one
    UNION ALL SELECT of eleven literals. Text outside that part is given no
    meaning. *)

(** The order of the rows of a statement. *)
Inductive direction : Type :=
| Ascending
| Descending
| AsProduced.

(** What a statement asks for, from the WHERE clause to its end: the rows of
    the join to keep, rows of literals added to them, and the order. *)
Record statement : Type := {
  condition : row -> option bool;
  appended : list row;
  ordering : direction
}.

Inductive reading : Type :=
| Reads (s : statement)
| Refuses
| NoReading.

Inductive token : Type :=
| TStr (s : pystr)
| TInt (z : Z)
| TWord (w : pystr)
| TSym (c : N).

(** The tokens of a text; [Illegal] when a string literal is never closed
    (no statement with such a token is accepted); [Unread] at a character
    outside the part read here. *)
Inductive lexed : Type :=
| Lexed (ts : list token)
| Illegal
| Unread.

Definition is_space (c : N) : bool :=
  (c =? 32)%N || (c =? 9)%N || (c =? 10)%N || (c =? 12)%N || (c =? 13)%N.

Definition is_letter (c : N) : bool :=
  ((65 <=? c) && (c <=? 90) || (97 <=? c) && (c <=? 122) || (c =? 95))%N.

Definition is_idchar (c : N) : bool := is_letter c || is_digit c.

(** The characters that continue an identifier and are not read here: the
    dollar sign and everything outside ASCII. *)
Definition is_idchar_unread (c : N) : bool := (c =? 36)%N || (128 <=? c)%N.

(** Characters that are a token, or the start of one, wherever they stand:
    parentheses, comma, and the signs of [=], [%], [*], [+], [-], [/], [<]
    and [>]; a point is looked at apart. *)
Definition is_sign (c : N) : bool :=
  existsb (N.eqb c) [40; 41; 44; 61; 37; 42; 43; 45; 47; 60; 62]%N.

Fixpoint span (p : N -> bool) (s : pystr) : pystr * pystr :=
  match s with
  | c :: t => if p c then let (w, r) := span p t in (c :: w, r) else ([], s)
  | [] => ([], [])
  end.

(** A comment from two dashes: up to the end of the line. *)
Fixpoint skip_line (s : pystr) : pystr :=
  match s with
  | c :: t => if (c =? 10)%N then s else skip_line t
  | [] => []
  end.

(** A comment between a slash with a star and a star with a slash, from the
    character after the opening: past the closing, or to the end of the text
    when there is none. *)
Fixpoint skip_block (s : pystr) : pystr :=
  match s with
  | c :: t =>
      if (c =? 42)%N && startswith t [47%N] then skipn 1 t else skip_block t
  | [] => []
  end.

(** A string literal from the character after its opening quote: its text and
    the rest; [None] when it is never closed. *)
Fixpoint string_body (s : pystr) : option (pystr * pystr) :=
  match s with
  | [] => None
  | c :: t =>
      if (c =? 39)%N then
        match t with
        | d :: t' =>
            if (d =? 39)%N
            then option_map (fun br => (c :: fst br, snd br)) (string_body t')
            else Some ([], t)
        | [] => Some ([], [])
        end
      else option_map (fun br => (c :: fst br, snd br)) (string_body t)
  end.

Definition cons_token (t : token) (rest : lexed) : lexed :=
  match rest with
  | Lexed ts => Lexed (t :: ts)
  | Illegal => Illegal
  | Unread => Unread
  end.

Definition head_is (p : N -> bool) (s : pystr) : bool :=
  match s with
  | c :: _ => p c
  | [] => false
  end.

(** [sqlite3GetToken] along the text, comments and blanks dropped; words are
    put in small letters (names and keywords are read without regard to
    case). An integer is read when it fits 64 bits and nothing is attached to
    it. *)
Fixpoint lex (fuel : nat) (s : pystr) : lexed :=
  match fuel with
  | O => match s with [] => Lexed [] | _ :: _ => Unread end
  | S fuel' =>
      match s with
      | [] => Lexed []
      | c :: t =>
          if is_space c then lex fuel' t
          else if (c =? 45)%N && head_is (N.eqb 45) t then lex fuel' (skip_line t)
          else if (c =? 47)%N && head_is (N.eqb 42) t && (2 <=? length t)
          then lex fuel' (skip_block (skipn 1 t))
          else if (c =? 39)%N then
            match string_body t with
            | None => Illegal
            | Some (body, rest) => cons_token (TStr body) (lex fuel' rest)
            end
          else if is_digit c then
            let (ds, rest) := span is_digit s in
            if head_is (fun d => is_idchar d || is_idchar_unread d || (d =? 46)%N) rest
            then Unread
            else if (int_of_digits ds <? 2 ^ 63)%Z
            then cons_token (TInt (int_of_digits ds)) (lex fuel' rest)
            else Unread
          else if is_letter c then
            let (w, rest) := span is_idchar s in
            if head_is is_idchar_unread rest then Unread
            else if str_eqb (map lower w) [120%N] && head_is (N.eqb 39) rest then Unread
            else cons_token (TWord (map lower w)) (lex fuel' rest)
          else if (c =? 46)%N then
            if head_is is_digit t then Unread
            else cons_token (TSym c) (lex fuel' t)
          else if is_sign c then cons_token (TSym c) (lex fuel' t)
          else Unread
      end
  end.

(** The values a condition is made of: a text literal, an integer literal,
    NULL, or a column that holds a text or NULL. *)
Inductive operand : Type :=
| Lit (s : pystr)
| Int (z : Z)
| Null
| Col (get : row -> option pystr).

Definition is_word (s : string) (t : token) : bool :=
  match t with
  | TWord w => str_eqb w (py s)
  | _ => false
  end.

Definition is_sym (c : N) (t : token) : bool :=
  match t with
  | TSym d => (c =? d)%N
  | _ => false
  end.

Definition head_is_word (s : string) (ts : list token) : bool :=
  match ts with
  | t :: _ => is_word s t
  | [] => false
  end.

(** The text columns of the two tables of the statement, under their
    aliases. *)
Definition column (table name : pystr) : option (row -> option pystr) :=
  if str_eqb table (py "n") then
    if str_eqb name (py "path") then Some (fun r => option_map n_path (of_n r))
    else if str_eqb name (py "title") then Some (ncol n_title)
    else if str_eqb name (py "folder") then Some (ncol n_folder)
    else if str_eqb name (py "status") then Some (ncol n_status)
    else if str_eqb name (py "priority") then Some (ncol n_priority)
    else if str_eqb name (py "due") then Some (ncol n_due)
    else if str_eqb name (py "tags") then Some (ncol n_tags)
    else None
  else if str_eqb table (py "c") then
    if str_eqb name (py "path") then Some (fun r => Some (c_path (of_c r)))
    else if str_eqb name (py "heading") then Some (fun r => c_heading (of_c r))
    else if str_eqb name (py "chunk_text") then Some (fun r => Some (c_chunk_text (of_c r)))
    else None
  else None.

Definition parse_operand (ts : list token) : option (operand * list token) :=
  match ts with
  | TStr s :: rest => Some (Lit s, rest)
  | TInt z :: rest => Some (Int z, rest)
  | TWord w :: rest =>
      if str_eqb w (py "null") then Some (Null, rest)
      else
        match rest with
        | TSym 46%N :: TWord name :: rest' =>
            option_map (fun get => (Col get, rest')) (column w name)
        | _ => None
        end
  | _ => None
  end.

(** [a = b] between literals: equal when of the same kind and the same; NULL
    when one is NULL. A column is compared under its collation, which the
    schema has and the statement has not: not read. *)
Definition equals (a b : operand) : option (row -> option bool) :=
  match a, b with
  | Null, _ | _, Null => Some (fun _ => None)
  | Col _, _ | _, Col _ => None
  | Lit s, Lit t => Some (fun _ => Some (str_eqb s t))
  | Int x, Int y => Some (fun _ => Some (x =? y)%Z)
  | Lit _, Int _ | Int _, Lit _ => Some (fun _ => Some false)
  end.

(** [a LIKE pattern], for a pattern that is a literal within the limit. *)
Definition likes (a pattern : operand) : option (row -> option bool) :=
  match a, pattern with
  | Int _, _ | _, Int _ | _, Col _ => None
  | Null, _ | _, Null => Some (fun _ => None)
  | Lit s, Lit p =>
      if (utf8_length p <=? like_pattern_max)%N then Some (fun _ => Some (like p s))
      else None
  | Col get, Lit p =>
      if (utf8_length p <=? like_pattern_max)%N
      then Some (fun r => option_map (like p) (get r))
      else None
  end.

Definition is_null (a : operand) : row -> option bool :=
  match a with
  | Null => fun _ => Some true
  | Col get => fun r => Some (match get r with None => true | Some _ => false end)
  | Lit _ | Int _ => fun _ => Some false
  end.

(** An operand where a condition is expected: an integer is true when it is
    not zero. *)
Definition truth (a : operand) : option (row -> option bool) :=
  match a with
  | Int z => Some (fun _ => Some (negb (z =? 0)%Z))
  | Null => Some (fun _ => None)
  | Lit _ | Col _ => None
  end.

(** An operand and what is made of it by the operator after it, if any. *)
Definition parse_comparison (ts : list token) :
  option ((row -> option bool) * list token) :=
  match parse_operand ts with
  | None => None
  | Some (a, rest) =>
      match rest with
      | t :: rest1 =>
          if is_sym 61 t then
            match parse_operand rest1 with
            | Some (b, rest2) => option_map (fun p => (p, rest2)) (equals a b)
            | None => None
            end
          else if is_word "like" t then
            match parse_operand rest1 with
            | Some (b, rest2) => option_map (fun p => (p, rest2)) (likes a b)
            | None => None
            end
          else if is_word "not" t && head_is_word "like" rest1 then
            match parse_operand (skipn 1 rest1) with
            | Some (b, rest2) =>
                option_map (fun p => (fun r => not3 (p r), rest2)) (likes a b)
            | None => None
            end
          else if is_word "is" t then
            match rest1 with
            | t1 :: rest2 =>
                if is_word "null" t1 then Some (is_null a, rest2)
                else if is_word "not" t1 && head_is_word "null" rest2
                then Some (fun r => not3 (is_null a r), skipn 1 rest2)
                else None
            | [] => None
            end
          else option_map (fun p => (p, rest)) (truth a)
      | [] => option_map (fun p => (p, rest)) (truth a)
      end
  end.

(** Conditions: OR of ANDs of conditions that may be negated; a condition is
    a comparison or a condition in parentheses. *)
Fixpoint parse_or (fuel : nat) (ts : list token) :
  option ((row -> option bool) * list token) :=
  match fuel with
  | O => None
  | S fuel' =>
      match parse_and fuel' ts with
      | Some (a, rest) => or_rest fuel' a rest
      | None => None
      end
  end
with or_rest (fuel : nat) (a : row -> option bool) (ts : list token) :
  option ((row -> option bool) * list token) :=
  match fuel with
  | O => None
  | S fuel' =>
      if head_is_word "or" ts then
        match parse_and fuel' (skipn 1 ts) with
        | Some (b, rest) => or_rest fuel' (fun r => or3 (a r) (b r)) rest
        | None => None
        end
      else Some (a, ts)
  end
with parse_and (fuel : nat) (ts : list token) :
  option ((row -> option bool) * list token) :=
  match fuel with
  | O => None
  | S fuel' =>
      match parse_not fuel' ts with
      | Some (a, rest) => and_rest fuel' a rest
      | None => None
      end
  end
with and_rest (fuel : nat) (a : row -> option bool) (ts : list token) :
  option ((row -> option bool) * list token) :=
  match fuel with
  | O => None
  | S fuel' =>
      if head_is_word "and" ts then
        match parse_not fuel' (skipn 1 ts) with
        | Some (b, rest) => and_rest fuel' (fun r => and3 (a r) (b r)) rest
        | None => None
        end
      else Some (a, ts)
  end
with parse_not (fuel : nat) (ts : list token) :
  option ((row -> option bool) * list token) :=
  match fuel with
  | O => None
  | S fuel' =>
      match ts with
      | t :: rest =>
          if is_word "not" t then
            match parse_not fuel' rest with
            | Some (a, rest') => Some (fun r => not3 (a r), rest')
            | None => None
            end
          else if is_sym 40 t then
            match parse_or fuel' rest with
            | Some (a, t' :: rest') => if is_sym 41 t' then Some (a, rest') else None
            | _ => None
            end
          else parse_comparison ts
      | [] => None
      end
  end.

(** ORDER BY c.distance, with ASC or DESC or neither. *)
Definition parse_order (ts : list token) : option direction :=
  match ts with
  | o :: b :: c :: d :: x :: way =>
      if is_word "order" o && is_word "by" b && is_word "c" c && is_sym 46 d
         && is_word "distance" x
      then
        match way with
        | [] => Some Ascending
        | [w] =>
            if is_word "asc" w then Some Ascending
            else if is_word "desc" w then Some Descending
            else None
        | _ => None
        end
      else None
  | _ => None
  end.

(** The literals of a SELECT: texts, integers and NULL between commas. *)
Fixpoint parse_literals (ts : list token) : option (list operand) :=
  match ts with
  | [] => None
  | t :: rest =>
      let value :=
        match t with
        | TStr s => Some (Lit s)
        | TInt z => Some (Int z)
        | TWord w => if str_eqb w (py "null") then Some Null else None
        | TSym _ => None
        end in
      match value, rest with
      | Some v, [] => Some [v]
      | Some v, comma :: rest' =>
          if is_sym 44 comma then option_map (cons v) (parse_literals rest') else None
      | None, _ => None
      end
  end.

Definition text_or_null (v : operand) : option (option pystr) :=
  match v with
  | Lit s => Some (Some s)
  | Null => Some None
  | Int _ | Col _ => None
  end.

(** A row of eleven literals whose kinds are those of the columns: the code
    takes the length of the fourth and a slice of it, and reads the eleventh
    as JSON, so a text is needed there; the fifth, the distance, is a
    number. The columns of [n] are kept in a note of the same path. *)
Definition literal_row (vs : list operand) : option row :=
  match vs with
  | [Int id; Lit p; h; Lit text; Int d; t; f; s; pr; du; tg] =>
      match text_or_null h, text_or_null t, text_or_null f, text_or_null s,
            text_or_null pr, text_or_null du, text_or_null tg with
      | Some h', Some t', Some f', Some s', Some pr', Some du', Some tg' =>
          Some {| of_c := {| c_chunk_id := id; c_path := p; c_heading := h';
                             c_chunk_text := text; c_distance := inject_Z d |};
                  of_n := Some {| n_path := p; n_title := t'; n_folder := f';
                                  n_status := s'; n_priority := pr'; n_due := du';
                                  n_tags := tg' |} |}
      | _, _, _, _, _, _, _ => None
      end
  | _ => None
  end.

(** What may follow the condition: nothing, the ORDER BY, or UNION ALL SELECT
    with a row of literals (and no ORDER BY after it). *)
Definition parse_ending (ts : list token) : option (list row * direction) :=
  match ts with
  | [] => Some ([], AsProduced)
  | u :: a :: s :: lits =>
      if is_word "union" u && is_word "all" a && is_word "select" s then
        match parse_literals lits with
        | Some vs => option_map (fun r => ([r], AsProduced)) (literal_row vs)
        | None => None
        end
      else option_map (fun way => ([], way)) (parse_order ts)
  | _ => None
  end.

Definition read_tokens (ts : list token) : option statement :=
  match ts with
  | w :: rest =>
      if is_word "where" w then
        match parse_or (6 * length rest + 6) rest with
        | Some (p, ending) =>
            option_map
              (fun e => {| condition := p; appended := fst e; ordering := snd e |})
              (parse_ending ending)
        | None => None
        end
      else None
  | [] => None
  end.

(** The statement from WHERE to its end, read from its text. *)
Definition read_tail (text : pystr) : reading :=
  match lex (length text) text with
  | Illegal => Refuses
  | Unread => NoReading
  | Lexed ts =>
      match read_tokens ts with
      | Some s => Reads s
      | None => NoReading
      end
  end.

(** What [conn.execute(sql, ...)] with [cursor.fetchall()] gives: the rows, an
    [sqlite3.Error] (which the code catches), an exception of Python's own
    (which it does not), or nothing that is given a meaning here. *)
Inductive exn : Type :=
| JSONDecodeError
| EmbeddingError
| UnicodeEncodeError
| OverflowError.

Inductive fetched : Type :=
| Rows (rows : list row)
| SqlError
| PyError (e : exn)
| NoMeaning.

(** ** search *)

Record result : Type := {
  chunk_id : Z;
  path : pystr;
  heading : option pystr;
  snippet : pystr;
  distance : Q;
  title : option pystr;
  folder : option pystr;
  status : option pystr;
  priority : option pystr;
  due : option pystr;
  tags : pyvalue
}.

(** How a call of [search] ends: it returns the results, leaves through
    [sys.exit], or an exception goes up to the caller. *)
Inductive outcome : Type :=
| Returned (results : list result)
| SystemExit (code : Z)
| Raised (e : exn).

Inductive connection : Type :=
| NotOpened
| Open
| Closed.

Record run : Type := {
  out : outcome;
  conn : connection
}.

(** [row[3][:300] + "..." if len(row[3]) > 300 else row[3]] *)
Definition make_snippet (chunk_text : pystr) : pystr :=
  if 300 <? length chunk_text then firstn 300 chunk_text ++ py "..."
  else chunk_text.

(** [json.loads(row[10]) if row[10] else []]; [None] when [loads] raises. *)
Definition make_tags (stored : option pystr) : option pyvalue :=
  if truthy stored then
    match stored with
    | Some s => loads s
    | None => None
    end
  else Some (PyList []).

Definition build_result (r : row) : option result :=
  match make_tags (ncol n_tags r) with
  | None => None
  | Some t =>
      Some {| chunk_id := c_chunk_id (of_c r);
              path := c_path (of_c r);
              heading := c_heading (of_c r);
              snippet := make_snippet (c_chunk_text (of_c r));
              distance := c_distance (of_c r);
              title := ncol n_title r;
              folder := ncol n_folder r;
              status := ncol n_status r;
              priority := ncol n_priority r;
              due := ncol n_due r;
              tags := t |}
  end.

(** The loop over [rows[:n_results]]: [None] when building a result raises. *)
Fixpoint build_results (rows : list row) : option (list result) :=
  match rows with
  | [] => Some []
  | r :: rows' =>
      match build_result r with
      | None => None
      | Some x => option_map (cons x) (build_results rows')
      end
  end.

(** The list [where_clauses]. *)
Definition where_clauses (folder where_ : option pystr) : list clause :=
  (if truthy folder
   then match folder with Some f => [FolderLike f] | None => [] end
   else [])
  ++
  (if truthy where_
   then match where_ with Some w => [Paren w] | None => [] end
   else []).

(** An element of [where_clauses], as its f-string writes it. *)
Definition clause_text (cl : clause) : pystr :=
  match cl with
  | FolderLike folder => py "n.folder LIKE '" ++ folder ++ py "%'"
  | Paren text => py "(" ++ text ++ py ")"
  end.

(** The text [where_sql], and the text of [sql] from there to its end. *)
Definition where_text (clauses : list clause) : pystr :=
  match clauses with
  | [] => []
  | _ :: _ => py "WHERE " ++ join (py " AND ") (map clause_text clauses)
  end.

Definition statement_tail (clauses : list clause) : pystr :=
  where_text clauses
  ++ [10%N] ++ py "        ORDER BY c.distance" ++ [10%N] ++ py "    ".

(** [n_results * 3 if where_clauses else n_results] *)
Definition fetch_limit (n_results : nat) (clauses : list clause) : nat :=
  match clauses with
  | _ :: _ => n_results * 3
  | [] => n_results
  end.

(** The text of [sql] can be handed to SQLite: it has no surrogate (which
    UTF-8 does not encode). *)
Definition encodable (clauses : list clause) : bool :=
  forallb (fun cl => forallb scalar (clause_text cl)) clauses.

Definition has_nul (clauses : list clause) : bool :=
  existsb (fun cl => existsb (N.eqb 0) (clause_text cl)) clauses.

(** The folder stays inside the literal the code writes around it. *)
Definition closed_literal (cl : clause) : bool :=
  match cl with
  | FolderLike f =>
      match sql_literal (f ++ py "%") with
      | Some _ => true
      | None => false
      end
  | Paren _ => true
  end.

(** The pattern of the folder clause is longer than LIKE takes. *)
Definition too_complex (cl : clause) : bool :=
  match cl with
  | FolderLike f =>
      match sql_literal (f ++ py "%") with
      | Some pattern => (like_pattern_max <? utf8_length pattern)%N
      | None => false
      end
  | Paren _ => false
  end.

(** A limit is bound to the statement as a 64-bit integer of SQLite. *)
Definition fits_int64 (limit : nat) : bool := (Z.of_nat limit <? 2 ^ 63)%Z.

(** The rows of a statement, from the rows of the join: those the condition
    keeps and the rows added, in the order they are produced in, then in the
    order asked for. *)
Definition ordered (way : direction) (produced : list row) : list row :=
  match way with
  | Ascending => order_by (fun r => c_distance (of_c r)) produced
  | Descending => order_by (fun r => - c_distance (of_c r))%Q produced
  | AsProduced => produced
  end.

(** The code after [try]: [sys.exit(1)] on an [sqlite3.Error], the
    connection closed first; else the results of the first [n_results] rows,
    and the connection closed when they are all built. *)
Definition conclude (n_results : nat) (answer : fetched) : option run :=
  match answer with
  | NoMeaning => None
  | SqlError => Some {| out := SystemExit 1; conn := Closed |}
  | PyError e => Some {| out := Raised e; conn := Open |}
  | Rows rows =>
      match build_results (firstn n_results rows) with
      | None => Some {| out := Raised JSONDecodeError; conn := Open |}
      | Some results => Some {| out := Returned results; conn := Closed |}
      end
  end.

Section Search.

(** The file system: the database at a path, if there is a file; a file that
    is there is a database of the indexer. *)
Variable fs : pystr -> option database.
(** The embedding function [ef([query])[0]]; [None] when it raises. *)
Variable ef : pystr -> option (list Q).
(** The distance the index orders by. *)
Variable vec_distance : list Q -> list Q -> Q.
(** The meaning SQLite gives the text of [where], put between parentheses, over
    a database. *)
Variable sql_where : database -> pystr -> compiled.
(** The largest number of neighbours the index hands over in one query
    (sqlite-vec refuses a larger one). *)
Variable k_max : nat.
(** The order in which the index comes to its chunks when it is asked for so
    many neighbours: it decides between chunks at the same distance. *)
Variable scan : nat -> reorder candidate.
(** The order in which the rows of the statement are produced, before any
    ORDER BY. *)
Variable join_order : reorder row.

Definition compile (db : database) (cl : clause) : compiled :=
  match cl with
  | FolderLike f =>
      match sql_literal (f ++ py "%") with
      | Some pattern => Pred (fun r => option_map (like pattern) (ncol n_folder r))
      | None => Unmodelled
      end
  | Paren w => sql_where db w
  end.

(** [" AND ".join(where_clauses)]; no clause, no WHERE. *)
Definition where_sql (db : database) (clauses : list clause) : compiled :=
  fold_right (fun cl rest => conj (compile db cl) rest) (Pred (fun _ => Some true))
    clauses.

(** The statement from WHERE on: clause by clause while the folder stays in
    its literal, and from the text when it does not. *)
Definition prepare (db : database) (clauses : list clause) : reading :=
  if forallb closed_literal clauses then
    match where_sql db clauses with
    | Pred p => Reads {| condition := p; appended := []; ordering := Ascending |}
    | Rejected => Refuses
    | Unmodelled => NoReading
    end
  else read_tail (statement_tail clauses).

(** The chunks of the index, each with its distance to the query. *)
Definition candidates (db : database) (query_embedding : list Q) : list candidate :=
  map (fun v => {| c_chunk_id := v_chunk_id v;
                   c_path := v_path v;
                   c_heading := v_heading v;
                   c_chunk_text := v_chunk_text v;
                   c_distance := vec_distance (v_embedding v) query_embedding |})
    (vec_chunks db).

(** The chunks nearest first, as the index ranks them when asked for [limit]
    of them. *)
Definition ranked (db : database) (query_embedding : list Q) (limit : nat) :
  list candidate :=
  order_by c_distance (arrange (scan limit) (candidates db query_embedding)).

(** The inner SELECT: the [limit] chunks nearest to the query, nearest first. *)
Definition knn (db : database) (query_embedding : list Q) (limit : nat) :
  list candidate :=
  firstn limit (ranked db query_embedding limit).

(** The index answers a query of as many numbers as its embeddings have, for
    at most [k_max] neighbours. *)
Definition accepted (db : database) (query_embedding : list Q) (limit : nat) : bool :=
  (length query_embedding =? dim db) && (limit <=? k_max).

(** The rows a statement gives over the rows of the join. *)
Definition rows_of (s : statement) (joined : list row) : list row :=
  ordered (ordering s)
    (arrange join_order (filter (holds (condition s)) joined ++ appended s)).

(** The statement [sql] run with [(query_bytes, fetch_limit)]: the text is
    encoded and prepared, the limit is bound, and the rows are fetched. LIKE
    fails on a pattern that is too long as soon as it is called, which it is
    when the join has a row (with a condition of [where] beside it, it is only
    certain to be called when there is none). *)
Definition execute (db : database) (clauses : list clause)
  (query_embedding : list Q) (limit : nat) : fetched :=
  if has_nul clauses then NoMeaning
  else if negb (encodable clauses) then PyError UnicodeEncodeError
  else
    match prepare db clauses with
    | NoReading => NoMeaning
    | Refuses => SqlError
    | Reads s =>
        if negb (fits_int64 limit) then PyError OverflowError
        else if negb (accepted db query_embedding limit) then SqlError
        else
          let joined := left_join (knn db query_embedding limit) (notes db) in
          if existsb too_complex clauses
             && match joined with [] => false | _ :: _ => true end
          then match clauses with
               | [_] => SqlError
               | _ => NoMeaning
               end
          else Rows (rows_of s joined)
    end.

(** The number of rows that pass the filters when the index is asked for its
    [window] nearest chunks: with the number of chunks for [window], those of
    the whole index. *)
Definition qualifying (db : database) (query_embedding : list Q)
  (clauses : list clause) (window : nat) : nat :=
  match where_sql db clauses with
  | Pred p =>
      length (filter (holds p) (left_join (knn db query_embedding window) (notes db)))
  | _ => 0
  end.

(** The rows of the statement when its filters are the condition [p]: the
    rows of the join that [p] keeps, in ascending order of distance. *)
Definition kept_rows (db : database) (query_embedding : list Q) (limit : nat)
  (p : row -> option bool) : list row :=
  order_by (fun r => c_distance (of_c r))
    (arrange join_order
       (filter (holds p) (left_join (knn db query_embedding limit) (notes db)))).

(** [search(query, db_path, n_results, folder, where)], for a count
    [n_results] that is not negative. The connection is opened once the
    database is found. [None] where the statement is given no meaning. *)
Definition search (query db_path : pystr) (n_results : nat)
  (folder where_ : option pystr) : option run :=
  match fs db_path with
  | None => Some {| out := SystemExit 1; conn := NotOpened |}
  | Some db =>
      match ef query with
      | None => Some {| out := Raised EmbeddingError; conn := Open |}
      | Some query_embedding =>
          let clauses := where_clauses folder where_ in
          conclude n_results
            (execute db clauses query_embedding (fetch_limit n_results clauses))
      end
  end.

End Search.

(** ** A small vault

    Four notes and five chunks, an embedding of two coordinates, and the square
    of the Euclidean distance. Used by the examples below. *)

Definition sq_distance (a b : list Q) : Q :=
  fold_right Qplus 0%Q (map (fun ab => (fst ab - snd ab) * (fst ab - snd ab))%Q (combine a b)).

(** An embedder that answers for every text. *)
Definition demo_ef (query : pystr) : option (list Q) :=
  Some [inject_Z (Z.of_nat (length query)); 0%Q].

(** An embedder whose backend is down. *)
Definition down_ef (query : pystr) : option (list Q) := None.

(** The texts of [where] the examples use. *)
Definition demo_where (db : database) (text : pystr) : compiled :=
  if str_eqb text (py "status='open'")
  then Pred (fun r => option_map (str_eqb (py "open")) (ncol n_status r))
  else if str_eqb text (py "status=")
  then Rejected
  else Unmodelled.

(** Two orders: the rows as they come, and the last first. *)
Definition as_they_come {A : Type} : reorder A :=
  {| arrange := fun l => l; arrange_perm := @Permutation_refl A |}.

Definition last_first {A : Type} : reorder A :=
  {| arrange := @rev A;
     arrange_perm := fun l => Permutation_sym (Permutation_rev l) |}.

(** An index that comes to its chunks last first, so that of two chunks at
    the same distance the later one is ranked first. *)
Definition demo_scan (limit : nat) : reorder candidate := last_first.

Definition quoted (s : string) : pystr := [34%N] ++ py s ++ [34%N].

Definition plan_note : note :=
  {| n_path := py "Work/plan.md"; n_title := Some (py "Plan");
     n_folder := Some (py "Work"); n_status := Some (py "open");
     n_priority := Some (py "high"); n_due := None;
     n_tags := Some (py "[" ++ quoted "a" ++ py "," ++ quoted "b" ++ py "]") |}.

Definition demo_notes : list note :=
  [ plan_note;
    {| n_path := py "Work/log.md"; n_title := Some (py "Log");
       n_folder := Some (py "Work"); n_status := None;
       n_priority := None; n_due := None; n_tags := None |};
    {| n_path := py "Work-2024/review.md"; n_title := Some (py "Review");
       n_folder := Some (py "Work-2024"); n_status := Some (py "open");
       n_priority := None; n_due := None; n_tags := Some [] |};
    {| n_path := py "Home/todo.md"; n_title := Some (py "Todo");
       n_folder := Some (py "Home"); n_status := Some (py "done");
       n_priority := None; n_due := None;
       n_tags := Some (py "[" ++ quoted "home" ++ py "]") |} ].

Definition demo_chunk (id : Z) (p text : string) (x y : Q) : chunk :=
  {| v_chunk_id := id; v_path := py p; v_heading := None;
     v_chunk_text := py text; v_embedding := [x; y] |}.

Definition demo_chunks : list chunk :=
  [ demo_chunk 1 "Home/todo.md" "buy milk" 9 0;
    demo_chunk 2 "Work/plan.md" "plan the quarter" 5 1;
    demo_chunk 3 "Work/log.md" "to be continued..." 5 2;
    demo_chunk 4 "Work/plan.md" "deadlines" 5 0;
    demo_chunk 5 "Work-2024/review.md" "review of the year" 5 4 ].

Definition demo_db : database :=
  {| dim := 2; vec_chunks := demo_chunks; notes := demo_notes |}.

(** The same vault with a note whose tags are not JSON. *)
Definition broken_db : database :=
  {| dim := 2;
     vec_chunks := demo_chunks;
     notes :=
       {| n_path := py "Work/plan.md"; n_title := Some (py "Plan");
          n_folder := Some (py "Work"); n_status := Some (py "open");
          n_priority := None; n_due := None;
          n_tags := Some (py "not json") |} :: tl demo_notes |}.

Definition demo_fs (db_path : pystr) : option database :=
  if str_eqb db_path (py "vault.db") then Some demo_db
  else if str_eqb db_path (py "broken.db") then Some broken_db
  else None.

Definition demo_search :=
  search demo_fs demo_ef sq_distance demo_where 4096 demo_scan as_they_come.

(** A row of the note [Work/plan.md], whose tags are a list of two, and a row
    of a chunk no note is joined to. *)
Definition demo_candidate : candidate :=
  {| c_chunk_id := 4; c_path := py "Work/plan.md"; c_heading := None;
     c_chunk_text := py "deadlines"; c_distance := 0 |}.

Definition demo_row : row :=
  {| of_c := demo_candidate; of_n := Some plan_note |}.

Definition orphan_row : row := {| of_c := demo_candidate; of_n := None |}.


Definition demo_result : result :=
  {| chunk_id := 4; path := py "Work/plan.md"; heading := None;
     snippet := py "deadlines"; distance := 0;
     title := Some (py "Plan"); folder := Some (py "Work");
     status := Some (py "open"); priority := Some (py "high"); due := None;
     tags := PyList [PyStr (py "a"); PyStr (py "b")] |}.

(** Folder texts with a quote of their own. The first ends the literal, adds
    a condition that is always true and an ORDER BY of its own, and opens a
    comment that runs to the end of the statement; the second adds a row of
    literals in the same way. *)
Definition reversing_folder : pystr :=
  py "x' OR 1=1 ORDER BY c.distance DESC /*".

Definition adding_folder : pystr :=
  py "%' UNION ALL SELECT 1,'p',NULL,'t',0,NULL,NULL,NULL,NULL,NULL,NULL /*".

(** The results of a run that returned; none otherwise. *)
Definition results_of (r : option run) : list result :=
  match r with
  | Some {| out := Returned rs |} => rs
  | _ => []
  end.

(** ** Notions of the statements *)

(** Ascending distance: every result is at most as far as all that follow. *)
Definition ascending (rs : list result) : Prop :=
  StronglySorted (fun a b => (distance a <= distance b)%Q) rs.

(** A filter is active: the argument is given and not empty. *)
Definition filter_active (folder where_ : option pystr) : bool :=
  truthy folder || truthy where_.

(** An argument is supplied: it is not [None]. *)
Definition supplied (arg : option pystr) : bool :=
  match arg with
  | Some _ => true
  | None => false
  end.

(** An argument is supplied with a text in it. *)
Definition given (arg : option pystr) : bool :=
  match arg with
  | Some text => negb (length text =? 0)
  | None => false
  end.

(** The truncation marker. *)
Definition marker : pystr := py "...".


(** A folder argument without a quote (and without the character of code 0):
    whatever else it holds, it is the text of the pattern. *)
Definition unquoted (folder : option pystr) : bool :=
  match folder with
  | Some f => forallb (fun ch => negb ((ch =? 39)%N || (ch =? 0)%N)) f
  | None => true
  end.

(** No two notes have the same path. *)
Fixpoint unique_paths (ns : list note) : bool :=
  match ns with
  | [] => true
  | y :: ns' =>
      negb (existsb (fun z => str_eqb (n_path y) (n_path z)) ns') && unique_paths ns'
  end.


(** The tags of a note are stored as the data model has them: absent (NULL or
    the empty text), or the list of texts that [json.dumps] writes. *)
Definition written_tags (stored : option pystr) : Prop :=
  truthy stored = false \/
  exists ensure_ascii pad (ss : list pystr),
    forallb is_ws pad = true /\ forallb (forallb scalar) ss = true /\
    stored = Some (dumps_tags ensure_ascii (44%N :: pad) ss).

(** ** format_results *)

(** The text an f-string puts for a column: the text itself, or [None]. *)
Definition fstr (o : option pystr) : pystr :=
  match o with
  | Some s => s
  | None => py "None"
  end.

(** [str(i)] for a rank: its decimal digits. *)
Definition str_of_nat (i : nat) : pystr :=
  py (DecimalString.NilEmpty.string_of_uint (Nat.to_uint i)).

(** The keys of a result that [format_results] reads. It takes any list of
    such dictionaries: the distance may be [None] there, which it never is in
    a result of [search]. *)
Record shown : Type := {
  s_title : option pystr;
  s_path : pystr;
  s_heading : option pystr;
  s_status : option pystr;
  s_distance : option Q;
  s_snippet : pystr
}.

Definition shown_of (r : result) : shown :=
  {| s_title := title r; s_path := path r; s_heading := heading r;
     s_status := status r; s_distance := Some (distance r);
     s_snippet := snippet r |}.

Section Format.

(** The text of the relevance of a result at distance [d], one minus [d] as a
    percentage with two decimals; the arithmetic and the rounding are those
    of floats, and are left open. *)
Variable percent : Q -> pystr.

(** The lines the loop appends for the result of rank [i]. *)
Definition entry (i : nat) (r : shown) : list pystr :=
  [str_of_nat i ++ py ". " ++ fstr (s_title r);
   py "   Path: " ++ s_path r;
   py "   Section: " ++ fstr (s_heading r)]
  ++ (if truthy (s_status r) then [py "   Status: " ++ fstr (s_status r)] else [])
  ++ match s_distance r with
     | Some d => [py "   Relevance: " ++ percent d]
     | None => []
     end
  ++ [py "   Snippet: " ++ firstn 200 (s_snippet r) ++ py "...";
      []].

(** [enumerate(results, i)] through the loop. *)
Fixpoint entries (i : nat) (results : list shown) : list pystr :=
  match results with
  | [] => []
  | r :: results' => entry i r ++ entries (S i) results'
  end.

(** The list [lines] after the loop. *)
Definition format_lines (results : list shown) (query : pystr) : list pystr :=
  (py "=== Search Results for: " ++ query ++ py " ===" ++ [10%N]) :: entries 1 results.

(** [format_results(results, query)] *)
Definition format_results (results : list shown) (query : pystr) : pystr :=
  match results with
  | [] => py "No results found for: " ++ query
  | _ :: _ => join [10%N] (format_lines results query)
  end.

End Format.

(** A relevance text for the examples: one minus the distance as a whole
    percentage, none below zero. *)
Definition demo_percent (d : Q) : pystr :=
  let q := (100 * (1 - d))%Q in
  str_of_nat (Z.to_nat (Qnum q / Zpos (Qden q))) ++ py "%".

(** * Properties *)

(** ** The decoder has fuel enough *)

Lemma fine_bind {A B} (x : scan A) (k : A -> pystr -> scan B) (b b' : nat) :
  fine b x -> (forall a r, length r < b -> fine b' (k a r)) -> fine b' (scan_bind x k).
Proof. destruct x; simpl; auto. Qed.

Lemma fine_push (ch : N) (x : scan pystr) (b b' : nat) :
  fine b x -> b <= b' -> fine b' (push ch x).
Proof. destruct x; simpl; auto. lia. Qed.

Lemma decode_uXXXX_length s uni t :
  decode_uXXXX s = Some (uni, t) -> length s = 4 + length t.
Proof.
  unfold decode_uXXXX.
  destruct s as [|a [|b [|c' [|d t']]]]; try discriminate.
  destruct (hexval a), (hexval b), (hexval c'), (hexval d); try discriminate.
  now intros [= _ <-].
Qed.

Lemma scanstring_fine fuel s : length s < fuel -> fine (length s) (scanstring fuel s).
Proof.
  revert s. induction fuel as [|fuel IH]; intros s Hf; [lia|].
  destruct s as [|ch t]; [exact I|]. cbn [scanstring length] in *.
  destruct (ch =? 34)%N; [simpl; lia|].
  destruct (ch =? 92)%N.
  - destruct t as [|esc t1]; [exact I|]. cbn [length] in *.
    destruct (esc =? 117)%N.
    + destruct (decode_uXXXX t1) as [[uni t2]|] eqn:E1; [|exact I].
      apply decode_uXXXX_length in E1.
      destruct (is_high_surrogate uni && startswith t2 [92%N; 117%N]).
      * destruct (decode_uXXXX (skipn 2 t2)) as [[uni2 t3]|] eqn:E2; [|exact I].
        apply decode_uXXXX_length in E2. rewrite length_skipn in E2.
        destruct (is_low_surrogate uni2);
          (eapply fine_push; [apply IH|]; lia).
      * eapply fine_push; [apply IH|]; lia.
    + destruct (BACKSLASH esc); [|exact I].
      eapply fine_push; [apply IH|]; lia.
  - destruct (ch <? 32)%N; [exact I|].
    eapply fine_push; [apply IH|]; lia.
Qed.

Lemma skip_ws_length s : length (skip_ws s) <= length s.
Proof.
  induction s as [|ch s IH]; simpl; [lia|].
  destruct (is_ws ch); simpl; lia.
Qed.

Lemma span_digits_length s ds r : span_digits s = (ds, r) -> length r <= length s.
Proof.
  revert ds r. induction s as [|ch s IH]; simpl; intros ds r.
  - now intros [= _ <-].
  - destruct (is_digit ch).
    + destruct (span_digits s) as [ds' r'] eqn:E. intros [= _ <-].
      specialize (IH _ _ eq_refl). lia.
    + intros [= _ <-]. simpl. lia.
Qed.

Lemma match_digits_length sign s i r :
  match_digits sign s = Some (i, r) -> length r < length s.
Proof.
  unfold match_digits. destruct s as [|ch t]; [discriminate|]. simpl.
  destruct (ch =? 48)%N; [intros [= _ <-]; lia|].
  destruct (is_digit ch); [|discriminate].
  destruct (span_digits t) as [ds r0] eqn:E. intros [= _ <-].
  apply span_digits_length in E. lia.
Qed.

Lemma match_integer_length s i r : match_integer s = Some (i, r) -> length r < length s.
Proof.
  unfold match_integer. destruct s as [|ch t]; [discriminate|].
  destruct (ch =? 45)%N; intros H; apply match_digits_length in H; simpl in *; lia.
Qed.

Lemma match_frac_length s f r : match_frac s = (f, r) -> length r <= length s.
Proof.
  unfold match_frac. destruct s as [|ch t]; [now intros [= _ <-]|].
  destruct (ch =? 46)%N; [|now intros [= _ <-]].
  destruct (span_digits t) as [[|d ds] r0] eqn:E; intros [= _ <-]; [lia|].
  apply span_digits_length in E. simpl. lia.
Qed.

Lemma match_exp_digits_length s mark t e r :
  length t <= length s ->
  match_exp_digits s mark t = (e, r) -> length r <= length s.
Proof.
  unfold match_exp_digits. intros Hl.
  destruct (span_digits t) as [[|d ds] r0] eqn:E; intros [= _ <-]; [lia|].
  apply span_digits_length in E. lia.
Qed.

Lemma match_exp_length s e r : match_exp s = (e, r) -> length r <= length s.
Proof.
  unfold match_exp. destruct s as [|ch t]; [now intros [= _ <-]|].
  destruct ((ch =? 101)%N || (ch =? 69)%N); [|now intros [= _ <-]].
  destruct t as [|d t']; [now intros [= _ <-]|].
  destruct ((d =? 45)%N || (d =? 43)%N);
    apply match_exp_digits_length; simpl; lia.
Qed.

Lemma match_number_length s v r : match_number s = Some (v, r) -> length r < length s.
Proof.
  unfold match_number.
  destruct (match_integer s) as [[i r0]|] eqn:Ei; [|discriminate].
  apply match_integer_length in Ei.
  destruct (match_frac r0) as [f r1] eqn:Ef. apply match_frac_length in Ef.
  destruct (match_exp r1) as [e r2] eqn:Ee. apply match_exp_length in Ee.
  destruct f, e; intros [= _ <-]; lia.
Qed.

Lemma skipn_shorter (k : nat) (s : pystr) :
  0 < k -> s <> [] -> length (skipn k s) < length s.
Proof.
  intros Hk Hs. rewrite length_skipn. destruct s; [congruence|]. cbn [length]. lia.
Qed.

Lemma match_constant_fine s : s <> [] -> fine (length s) (match_constant s).
Proof.
  intros Hs. unfold match_constant.
  repeat match goal with
         | |- context [if ?b then _ else _] => destruct b
         end; cbn [fine]; auto; apply skipn_shorter; auto; lia.
Qed.

Lemma scan_once_S fuel s :
  scan_once (S fuel) s
  = match s with
    | [] => Stop
    | ch :: t =>
        if (ch =? 34)%N then
          do (str, r) <- scanstring (S (length t)) t; Ok (PyStr str) r
        else if (ch =? 123)%N then
          match skip_ws t with
          | [] => Stop
          | c1 :: t2 =>
              if (c1 =? 125)%N then Ok (PyDict []) t2
              else if (c1 =? 34)%N then
                do (pairs, r) <- object_pairs fuel t2;
                Ok (PyDict (dict_of_pairs pairs)) r
              else Stop
          end
        else if (ch =? 91)%N then
          match skip_ws t with
          | [] => Stop
          | c1 :: t2 =>
              if (c1 =? 93)%N then Ok (PyList []) t2
              else do (items, r) <- array_items fuel (skip_ws t); Ok (PyList items) r
          end
        else if startswith s (py "null") then Ok PyNone (skipn 4 s)
        else if startswith s (py "true") then Ok (PyBool true) (skipn 4 s)
        else if startswith s (py "false") then Ok (PyBool false) (skipn 5 s)
        else
          match match_number s with
          | Some (v, r) => Ok v r
          | None => match_constant s
          end
    end.
Proof. reflexivity. Qed.

Lemma object_pairs_S fuel s :
  object_pairs (S fuel) s
  = do (key, r) <- scanstring (S (length s)) s;
    match skip_ws r with
    | [] => Stop
    | ch :: r1 =>
        if (ch =? 58)%N then
          do (value, r2) <- scan_once fuel (skip_ws r1);
          match skip_ws r2 with
          | [] => Stop
          | c2 :: r3 =>
              if (c2 =? 125)%N then Ok [(key, value)] r3
              else if (c2 =? 44)%N then
                match skip_ws r3 with
                | [] => Stop
                | c3 :: r4 =>
                    if (c3 =? 34)%N then
                      do (pairs, r5) <- object_pairs fuel r4;
                      Ok ((key, value) :: pairs) r5
                    else Stop
                end
              else Stop
          end
        else Stop
    end.
Proof. reflexivity. Qed.

Lemma array_items_S fuel s :
  array_items (S fuel) s
  = do (value, r) <- scan_once fuel s;
    match skip_ws r with
    | [] => Stop
    | ch :: r1 =>
        if (ch =? 93)%N then Ok [value] r1
        else if (ch =? 44)%N then
          do (values, r2) <- array_items fuel (skip_ws r1);
          Ok (value :: values) r2
        else Stop
    end.
Proof. reflexivity. Qed.

Ltac note_skip_ws s :=
  lazymatch goal with
  | _ : length (skip_ws s) <= length s |- _ => fail
  | _ => pose proof (skip_ws_length s)
  end.

Ltac shorter :=
  repeat match goal with
         | H : skip_ws ?s = _ |- _ =>
             let L := fresh "L" in
             pose proof (skip_ws_length s) as L; rewrite H in L; clear H
         end;
  repeat match goal with
         | |- context [length (skip_ws ?s)] => note_skip_ws s
         | _ : context [length (skip_ws ?s)] |- _ => note_skip_ws s
         end;
  cbn [length] in *; try lia.

(** Enough fuel: twice the length and one for a value, one more for the
    items of an array and the pairs of an object. *)
Lemma scan_fine fuel :
  (forall s, 2 * length s + 1 <= fuel -> fine (length s) (scan_once fuel s)) /\
  (forall s, 2 * length s + 2 <= fuel -> fine (length s) (array_items fuel s)) /\
  (forall s, 2 * length s + 2 <= fuel -> fine (length s) (object_pairs fuel s)).
Proof.
  induction fuel as [|fuel (IHv & IHa & IHo)]; [repeat split; intros; lia|].
  repeat split; intros s Hf.
  - rewrite scan_once_S. destruct s as [|ch t]; [exact I|].
    destruct (ch =? 34)%N.
    { eapply fine_bind; [apply scanstring_fine; lia|].
      intros; simpl; lia. }
    destruct (ch =? 123)%N.
    { destruct (skip_ws t) as [|c1 t2] eqn:E; [exact I|].
      destruct (c1 =? 125)%N; [simpl; shorter|].
      destruct (c1 =? 34)%N; [|exact I].
      eapply fine_bind; [apply IHo; shorter|].
      intros; simpl. shorter. }
    destruct (ch =? 91)%N.
    { destruct (skip_ws t) as [|c1 t2] eqn:E; [exact I|].
      destruct (c1 =? 93)%N; [simpl; shorter|].
      eapply fine_bind; [apply IHa; shorter|].
      intros a r Hr; simpl. shorter. }
    destruct (startswith _ _); [apply skipn_shorter; [lia|discriminate]|].
    destruct (startswith _ _); [apply skipn_shorter; [lia|discriminate]|].
    destruct (startswith _ _); [apply skipn_shorter; [lia|discriminate]|].
    destruct (match_number (ch :: t)) as [[v r]|] eqn:E.
    + apply match_number_length in E. exact E.
    + apply match_constant_fine. discriminate.
  - rewrite array_items_S.
    eapply fine_bind; [apply IHv; lia|].
    intros value r Hr.
    destruct (skip_ws r) as [|ch r1] eqn:E; [exact I|].
    destruct (ch =? 93)%N; [simpl; shorter|].
    destruct (ch =? 44)%N; [|exact I].
    eapply fine_bind; [apply IHa; shorter|].
    intros; simpl. shorter.
  - rewrite object_pairs_S.
    eapply fine_bind; [apply scanstring_fine; lia|].
    intros key r Hr.
    destruct (skip_ws r) as [|ch r1] eqn:E; [exact I|].
    destruct (ch =? 58)%N; [|exact I].
    eapply fine_bind; [apply IHv; shorter|].
    intros value r2 Hr2.
    destruct (skip_ws r2) as [|c2 r3] eqn:E2; [exact I|].
    destruct (c2 =? 125)%N; [simpl; shorter|].
    destruct (c2 =? 44)%N; [|exact I].
    destruct (skip_ws r3) as [|c3 r4] eqn:E3; [exact I|].
    destruct (c3 =? 34)%N; [|exact I].
    eapply fine_bind; [apply IHo; shorter|].
    intros; simpl. shorter.
Qed.

(** [loads] gives an answer for every text: the decoder never runs out of
    fuel. *)
Lemma raw_decode_fuel (s : pystr) : raw_decode s <> Fuel.
Proof.
  unfold raw_decode.
  pose proof (proj1 (scan_fine (2 * length s + 2)) (skip_ws s)) as H.
  pose proof (skip_ws_length s).
  destruct (scan_once _ _); try discriminate.
  intros _. apply H. lia.
Qed.

(** ** The decoder undoes the encoder *)

Lemma hexval_hexdigit (d : N) : (d < 16)%N -> hexval (hexdigit d) = Some d.
Proof.
  intros H.
  assert (E : In d [0;1;2;3;4;5;6;7;8;9;10;11;12;13;14;15]%N).
  { simpl. lia. }
  simpl in E. repeat destruct E as [<-|E]; try reflexivity. destruct E.
Qed.

Lemma hex4_value (x : N) :
  (x < 65536)%N ->
  (4096 * ((x / 4096) mod 16) + 256 * ((x / 256) mod 16)
   + 16 * ((x / 16) mod 16) + x mod 16 = x)%N.
Proof.
  intros H. zify. Z.to_euclidean_division_equations. lia.
Qed.

Lemma decode_hex4 (x : N) (t : pystr) :
  (x < 65536)%N -> decode_uXXXX (hex4 x ++ t) = Some (x, t).
Proof.
  intros H. unfold hex4, decode_uXXXX. cbn [app].
  rewrite !hexval_hexdigit by (apply N.mod_lt; discriminate).
  now rewrite hex4_value.
Qed.

Lemma lor_disjoint (a b : N) : N.land a b = 0%N -> N.lor a b = (a + b)%N.
Proof.
  intros H. rewrite <- (N.lxor_lor _ _ H). symmetry. now apply N.add_nocarry_lxor.
Qed.

Lemma high_half (x : N) :
  (x < 1048576)%N ->
  N.lor 55296 (N.land (N.shiftr x 10) 1023) = (55296 + x / 1024)%N.
Proof.
  intros H. rewrite lor_disjoint.
  - f_equal. change 1023%N with (N.ones 10). rewrite N.land_ones, N.shiftr_div_pow2.
    change (2 ^ 10)%N with 1024%N. apply N.mod_small.
    zify. Z.to_euclidean_division_equations. lia.
  - rewrite (N.land_comm (N.shiftr x 10)), N.land_assoc. reflexivity.
Qed.

Lemma low_half (x : N) :
  N.lor 56320 (N.land x 1023) = (56320 + x mod 1024)%N.
Proof.
  rewrite lor_disjoint.
  - f_equal. change 1023%N with (N.ones 10). now rewrite N.land_ones.
  - rewrite (N.land_comm x), N.land_assoc. reflexivity.
Qed.

Lemma join_halves (x : N) :
  join_surrogates (55296 + x / 1024) (56320 + x mod 1024) = (65536 + x)%N.
Proof.
  unfold join_surrogates. f_equal.
  rewrite (N.add_comm 55296), (N.add_comm 56320), !N.add_sub.
  change 1024%N with (2 ^ 10)%N.
  rewrite <- N.shiftr_div_pow2, <- N.land_ones, <- N.ldiff_ones_r.
  apply N.lor_ldiff_and.
Qed.

(** One step of [scanstring] on each form a character is written in. *)
Lemma scanstring_quote fuel t : scanstring (S fuel) (34%N :: t) = Ok [] t.
Proof. reflexivity. Qed.

Lemma scanstring_raw fuel ch t :
  (32 <= ch)%N -> ch <> 34%N -> ch <> 92%N ->
  scanstring (S fuel) (ch :: t) = push ch (scanstring fuel t).
Proof.
  intros H1 H2 H3. cbn [scanstring].
  apply N.eqb_neq in H2, H3. rewrite H2, H3.
  apply N.ltb_ge in H1. now rewrite H1.
Qed.

Lemma scanstring_backslash fuel esc ch t :
  BACKSLASH esc = Some ch ->
  scanstring (S fuel) (92%N :: esc :: t) = push ch (scanstring fuel t).
Proof.
  intros H. cbn [scanstring]. change (92 =? 34)%N with false.
  change (92 =? 92)%N with true. cbv iota.
  destruct (esc =? 117)%N eqn:E.
  - apply N.eqb_eq in E. subst esc. discriminate H.
  - now rewrite H.
Qed.

Lemma scanstring_u fuel t uni t2 :
  decode_uXXXX t = Some (uni, t2) ->
  is_high_surrogate uni = false ->
  scanstring (S fuel) (92%N :: 117%N :: t) = push uni (scanstring fuel t2).
Proof.
  intros H1 H2. cbn [scanstring]. change (92 =? 34)%N with false.
  change (92 =? 92)%N with true. change (117 =? 117)%N with true. cbv iota.
  now rewrite H1, H2.
Qed.

Lemma scanstring_pair fuel t uni uni2 t2 t3 :
  decode_uXXXX t = Some (uni, 92%N :: 117%N :: t2) ->
  is_high_surrogate uni = true ->
  decode_uXXXX t2 = Some (uni2, t3) ->
  is_low_surrogate uni2 = true ->
  scanstring (S fuel) (92%N :: 117%N :: t)
  = push (join_surrogates uni uni2) (scanstring fuel t3).
Proof.
  intros H1 H2 H3 H4. cbn [scanstring]. change (92 =? 34)%N with false.
  change (92 =? 92)%N with true. change (117 =? 117)%N with true. cbv iota.
  rewrite H1, H2. cbn [startswith skipn andb]. 
  change (92 =? 92)%N with true. change (117 =? 117)%N with true. cbn [andb].
  now rewrite H3, H4.
Qed.

Lemma short_escape_BACKSLASH ch e :
  short_escape ch = Some e ->
  exists esc, e = [92%N; esc] /\ BACKSLASH esc = Some ch.
Proof.
  unfold short_escape.
  repeat (destruct (ch =? _)%N eqn:E;
          [apply N.eqb_eq in E; subst ch; intros [= <-]; eexists; split; reflexivity|];
          clear E).
  discriminate.
Qed.

Lemma short_escape_None ch :
  short_escape ch = None -> ch <> 34%N /\ ch <> 92%N.
Proof.
  unfold short_escape.
  destruct (ch =? 92)%N eqn:E1; [discriminate|].
  destruct (ch =? 34)%N eqn:E2; [discriminate|].
  intros _. lia.
Qed.

Lemma is_high_half (h : N) : (h < 1024)%N -> is_high_surrogate (55296 + h) = true.
Proof. unfold is_high_surrogate. lia. Qed.

Lemma is_low_half (l : N) : (l < 1024)%N -> is_low_surrogate (56320 + l) = true.
Proof. unfold is_low_surrogate. lia. Qed.

Lemma scanstring_encode_char ea ch t fuel :
  scalar ch = true ->
  scanstring (S fuel) (encode_char ea ch ++ t) = push ch (scanstring fuel t).
Proof.
  intros Hs. unfold scalar in Hs. unfold encode_char.
  destruct (short_escape ch) as [e|] eqn:E.
  - apply short_escape_BACKSLASH in E as (esc & -> & E).
    now apply scanstring_backslash.
  - apply short_escape_None in E as [E1 E2].
    destruct (ch <? 32)%N eqn:E32; [|destruct (ea && (126 <? ch)%N) eqn:Ea;
                                       [destruct (ch <? 65536)%N eqn:E16|]].
    + apply scanstring_u with (t2 := t).
      * apply decode_hex4. lia.
      * unfold is_high_surrogate. lia.
    + apply scanstring_u with (t2 := t).
      * apply decode_hex4. lia.
      * unfold is_high_surrogate. lia.
    + cbv zeta. set (x := (ch - 65536)%N).
      assert (Hx : (x < 1048576)%N) by lia.
      assert (Hch : ch = (65536 + x)%N) by lia.
      assert (Hd : (x / 1024 < 1024)%N /\ (x mod 1024 < 1024)%N).
      { split.
        - apply N.Div0.div_lt_upper_bound. lia.
        - apply N.mod_lt. discriminate. }
      rewrite (high_half x Hx), low_half. unfold escape_u.
      rewrite <- !app_assoc. cbn [app].
      clearbody x. subst ch. rewrite <- join_halves.
      apply scanstring_pair with (t2 := hex4 (56320 + x mod 1024) ++ t).
      * apply (decode_hex4 _ (92%N :: 117%N :: _)).
        apply N.lt_trans with (55296 + 1024)%N; [|reflexivity].
        apply N.add_lt_mono_l, Hd.
      * apply is_high_half, Hd.
      * apply decode_hex4.
        apply N.lt_trans with (56320 + 1024)%N; [|reflexivity].
        apply N.add_lt_mono_l, Hd.
      * apply is_low_half, Hd.
    + apply scanstring_raw; lia.
Qed.

Lemma scanstring_encode ea s rest fuel :
  forallb scalar s = true ->
  length s < fuel ->
  scanstring fuel (flat_map (encode_char ea) s ++ 34%N :: rest) = Ok s rest.
Proof.
  revert fuel. induction s as [|ch s IH]; intros [|fuel] Hs Hf; simpl in Hf; try lia.
  - reflexivity.
  - cbn [flat_map forallb] in *. apply andb_true_iff in Hs as [Hch Hs].
    rewrite <- app_assoc, scanstring_encode_char by exact Hch.
    rewrite IH by (auto; lia). reflexivity.
Qed.

Lemma encode_length ea s : length s <= length (flat_map (encode_char ea) s).
Proof.
  induction s as [|ch s IH]; simpl; [lia|].
  rewrite length_app.
  assert (1 <= length (encode_char ea ch)); [|lia].
  unfold encode_char, short_escape, escape_u.
  repeat match goal with |- context [if ?b then _ else _] => destruct b end;
    simpl; try rewrite length_app; simpl; lia.
Qed.

Lemma skip_ws_pad (pad : pystr) (ch : N) (t : pystr) :
  forallb is_ws pad = true -> is_ws ch = false ->
  skip_ws (pad ++ ch :: t) = ch :: t.
Proof.
  intros Hp Hc. induction pad as [|x pad IH]; simpl in *.
  - now rewrite Hc.
  - apply andb_true_iff in Hp as [Hx Hp]. rewrite Hx. now apply IH.
Qed.

Lemma scan_once_string ea s rest fuel :
  forallb scalar s = true ->
  scan_once (S fuel) (encode_basestring ea s ++ rest) = Ok (PyStr s) rest.
Proof.
  intros Hs. unfold encode_basestring. rewrite <- !app_assoc.
  cbn [app scan_once]. change (34 =? 34)%N with true. cbv iota.
  rewrite scanstring_encode; [reflexivity|exact Hs|].
  rewrite length_app. pose proof (encode_length ea s). lia.
Qed.

Lemma join_head ea sep s ss :
  exists t, join sep (map (encode_basestring ea) (s :: ss)) = 34%N :: t.
Proof. destruct ss; simpl; now eexists. Qed.

Lemma join_map_cons {A} (f : A -> pystr) sep x y l :
  join sep (map f (x :: y :: l)) = f x ++ sep ++ join sep (map f (y :: l)).
Proof. reflexivity. Qed.

Lemma skip_ws_join ea pad sep (s : pystr) (ss : list pystr) rest :
  forallb is_ws pad = true ->
  skip_ws (pad ++ join sep (map (encode_basestring ea) (s :: ss)) ++ rest)
  = join sep (map (encode_basestring ea) (s :: ss)) ++ rest.
Proof.
  intros Hp. destruct (join_head ea sep s ss) as [t ->].
  now apply skip_ws_pad.
Qed.

Lemma array_items_join ea pad (ss : list pystr) (s : pystr) rest fuel :
  forallb is_ws pad = true ->
  forallb (forallb scalar) (s :: ss) = true ->
  S (length ss) < fuel ->
  array_items fuel
    (join (44%N :: pad) (map (encode_basestring ea) (s :: ss)) ++ 93%N :: rest)
  = Ok (map PyStr (s :: ss)) rest.
Proof.
  intros Hp. revert s fuel.
  induction ss as [|s' ss IH]; intros s [|[|fuel]] Hs Hf; simpl in Hf; try lia;
    cbn [forallb] in Hs; apply andb_true_iff in Hs as [Hs Hss];
    rewrite array_items_S.
  - cbn [map join].
    rewrite scan_once_string by exact Hs. reflexivity.
  - rewrite join_map_cons.
    rewrite <- !app_assoc, scan_once_string by exact Hs.
    cbn [scan_bind app skip_ws].
    change (is_ws 44) with false. cbv iota.
    change (44 =? 93)%N with false. change (44 =? 44)%N with true. cbv iota.
    rewrite skip_ws_join by exact Hp.
    rewrite IH by (auto; lia). reflexivity.
Qed.

Lemma join_length ea sep (ss : list pystr) :
  length ss <= length (join sep (map (encode_basestring ea) ss)).
Proof.
  induction ss as [|s ss IH]; [simpl; lia|].
  destruct ss as [|s' ss].
  - cbn [map join length]. unfold encode_basestring. cbn [app length]. lia.
  - rewrite join_map_cons, !length_app. cbn [length] in *.
    unfold encode_basestring at 1. cbn [app length]. lia.
Qed.

Lemma scan_once_dumps_tags ea pad (ss : list pystr) fuel :
  forallb is_ws pad = true ->
  forallb (forallb scalar) ss = true ->
  S (S (length ss)) < fuel ->
  scan_once fuel (dumps_tags ea (44%N :: pad) ss) = Ok (PyList (map PyStr ss)) [].
Proof.
  intros Hp Hs Hf. destruct fuel as [|fuel]; [lia|].
  unfold dumps_tags. cbn [app scan_once].
  change (91 =? 34)%N with false. change (91 =? 123)%N with false.
  change (91 =? 91)%N with true. cbv iota.
  destruct ss as [|s ss]; [reflexivity|].
  pose proof (skip_ws_join ea [] (44%N :: pad) s ss [93%N] eq_refl) as Hw.
  cbn [app] in Hw. rewrite Hw.
  pose proof (array_items_join ea pad ss s [] fuel Hp Hs) as H.
  destruct (join_head ea (44%N :: pad) s ss) as [t Ht].
  rewrite Ht in H |- *. cbn [app] in H |- *.
  change (34 =? 93)%N with false. cbv iota.
  rewrite H by (simpl in Hf; lia). reflexivity.
Qed.

(** The decoder undoes the encoder on a list of texts. *)
Lemma loads_dumps_tags ea pad (ss : list pystr) :
  forallb is_ws pad = true ->
  forallb (forallb scalar) ss = true ->
  loads (dumps_tags ea (44%N :: pad) ss) = Some (PyList (map PyStr ss)).
Proof.
  intros Hp Hs. unfold loads, raw_decode.
  replace (skip_ws (dumps_tags ea (44%N :: pad) ss))
    with (dumps_tags ea (44%N :: pad) ss) by reflexivity.
  rewrite scan_once_dumps_tags; [reflexivity|exact Hp|exact Hs|].
  unfold dumps_tags. rewrite !length_app.
  pose proof (join_length ea (44%N :: pad) ss). simpl. lia.
Qed.

(** ** Ordering *)

Section Ordering.

Context {A : Type} (key : A -> Q).

Let le (a b : A) : Prop := (key a <= key b)%Q.

Lemma insert_by_length (x : A) (l : list A) :
  length (insert_by key x l) = S (length l).
Proof.
  induction l as [|y l IH]; simpl; [reflexivity|].
  destruct (Qle_bool (key x) (key y)); simpl; [reflexivity|].
  now rewrite IH.
Qed.

Lemma order_by_length (l : list A) : length (order_by key l) = length l.
Proof.
  induction l as [|x l IH]; simpl; [reflexivity|].
  now rewrite insert_by_length, IH.
Qed.

Lemma insert_by_In (x y : A) (l : list A) :
  In y (insert_by key x l) <-> y = x \/ In y l.
Proof.
  induction l as [|z l IH]; simpl.
  - intuition.
  - destruct (Qle_bool (key x) (key z)); simpl; [intuition|].
    rewrite IH. intuition.
Qed.

Lemma order_by_In (y : A) (l : list A) : In y (order_by key l) <-> In y l.
Proof.
  induction l as [|x l IH]; simpl; [reflexivity|].
  rewrite insert_by_In, IH. intuition.
Qed.

Lemma insert_by_sorted (x : A) (l : list A) :
  StronglySorted le l -> StronglySorted le (insert_by key x l).
Proof.
  induction 1 as [|y l Hs IH Hall]; simpl.
  - constructor; constructor.
  - destruct (Qle_bool (key x) (key y)) eqn:E.
    + apply Qle_bool_iff in E.
      constructor; [now constructor|].
      constructor; [exact E|].
      eapply Forall_impl; [|exact Hall].
      intros z Hz. unfold le in *. now apply Qle_trans with (key y).
    + assert (Hyx : le y x).
      { unfold le. apply Qlt_le_weak, Qnot_le_lt.
        intro H. apply Qle_bool_iff in H. congruence. }
      constructor; [exact IH|].
      apply Forall_forall. intros z Hz.
      apply insert_by_In in Hz as [->|Hz]; [exact Hyx|].
      rewrite Forall_forall in Hall. now apply Hall.
Qed.

Lemma order_by_sorted (l : list A) : StronglySorted le (order_by key l).
Proof.
  induction l as [|x l IH]; simpl; [constructor|].
  now apply insert_by_sorted.
Qed.

End Ordering.

Lemma StronglySorted_firstn {A} (R : A -> A -> Prop) (k : nat) (l : list A) :
  StronglySorted R l -> StronglySorted R (firstn k l).
Proof.
  intros H. revert k.
  induction H as [|x l Hs IH Hall]; intros [|k]; simpl; try constructor.
  - apply IH.
  - apply Forall_forall. intros y Hy.
    rewrite Forall_forall in Hall. apply Hall.
    rewrite <- (firstn_skipn k l). apply in_or_app. now left.
Qed.

(** ** Building the results *)

Lemma build_results_Forall2 (rows : list row) (rs : list result) :
  build_results rows = Some rs ->
  Forall2 (fun r x => build_result r = Some x) rows rs.
Proof.
  revert rs. induction rows as [|r rows IH]; simpl; intros rs H.
  - injection H as <-. constructor.
  - destruct (build_result r) as [x|] eqn:E; [|discriminate].
    destruct (build_results rows) as [xs|]; [|discriminate].
    injection H as <-. constructor; auto.
Qed.

Lemma build_results_length (rows : list row) (rs : list result) :
  build_results rows = Some rs -> length rs = length rows.
Proof.
  intros H. apply build_results_Forall2 in H.
  induction H; simpl; congruence.
Qed.

Lemma build_result_distance (r : row) (x : result) :
  build_result r = Some x -> distance x = c_distance (of_c r).
Proof.
  unfold build_result. destruct (make_tags _); [|discriminate].
  now intros [= <-].
Qed.


Lemma build_results_ascending (rows : list row) (rs : list result) :
  StronglySorted (fun a b => (c_distance (of_c a) <= c_distance (of_c b))%Q) rows ->
  build_results rows = Some rs -> ascending rs.
Proof.
  intros Hs H. apply build_results_Forall2 in H. unfold ascending.
  induction H as [|r x rows rs Hx H IH]; [constructor|].
  inversion Hs as [|? ? Hs' Hall]; subst.
  constructor; [now apply IH|].
  clear IH Hs Hs'. induction H as [|r' x' rows rs Hx' H IH]; constructor.
  - inversion Hall; subst.
    now rewrite (build_result_distance _ _ Hx), (build_result_distance _ _ Hx').
  - apply IH. now inversion Hall.
Qed.



(** ** The same rows in another order *)

Lemma insert_by_perm {A} (key : A -> Q) (x : A) (l : list A) :
  Permutation (insert_by key x l) (x :: l).
Proof.
  induction l as [|y l IH]; simpl; [reflexivity|].
  destruct (Qle_bool (key x) (key y)); [reflexivity|].
  rewrite IH. apply perm_swap.
Qed.

Lemma order_by_perm {A} (key : A -> Q) (l : list A) : Permutation (order_by key l) l.
Proof.
  induction l as [|x l IH]; simpl; [reflexivity|].
  rewrite insert_by_perm. now apply perm_skip.
Qed.




(** ** The join and the filters *)

Lemma left_join_length (cs : list candidate) (ns : list note) :
  length cs <= length (left_join cs ns).
Proof.
  induction cs as [|x cs IH]; simpl; [lia|].
  rewrite length_app.
  destruct (filter _ ns) as [|y ys]; simpl; try rewrite length_map; lia.
Qed.

Lemma left_join_note (cs : list candidate) (ns : list note) (r : row) :
  In r (left_join cs ns) -> of_n r = None \/ exists y, of_n r = Some y /\ In y ns.
Proof.
  unfold left_join. rewrite in_flat_map. intros (x & _ & H).
  destruct (filter _ ns) as [|y ys] eqn:E.
  - destruct H as [<-|[]]. now left.
  - rewrite <- E in H. apply in_map_iff in H as (z & <- & Hz).
    apply filter_In in Hz as [Hz _]. right. now exists z.
Qed.

Lemma filter_holds_true (l : list row) : filter (holds (fun _ => Some true)) l = l.
Proof.
  induction l as [|r l IH]; simpl; [reflexivity|]. now rewrite IH.
Qed.

Lemma build_results_total (rows : list row) :
  Forall (fun r => make_tags (ncol n_tags r) <> None) rows ->
  exists rs, build_results rows = Some rs.
Proof.
  induction 1 as [|r rows Hr _ [rs IH]]; simpl.
  - now exists [].
  - unfold build_result. destruct (make_tags _) as [t|]; [|congruence].
    rewrite IH. simpl. eauto.
Qed.


Lemma In_firstn {A} (k : nat) (l : list A) (x : A) : In x (firstn k l) -> In x l.
Proof.
  intros H. rewrite <- (firstn_skipn k l). apply in_or_app. now left.
Qed.

Lemma Forall_firstn {A} (P : A -> Prop) (k : nat) (l : list A) :
  Forall P l -> Forall P (firstn k l).
Proof.
  rewrite !Forall_forall. intros H x Hx. apply H. now apply In_firstn in Hx.
Qed.


Lemma str_eqb_eq (a b : pystr) : str_eqb a b = true <-> a = b.
Proof.
  revert b. induction a as [|x a IH]; intros [|y b]; simpl; split;
    try discriminate; try reflexivity.
  - intros H. apply andb_true_iff in H as [Hx H].
    apply N.eqb_eq in Hx. apply IH in H. congruence.
  - intros [= -> ->]. rewrite N.eqb_refl. now apply IH.
Qed.

Lemma StronglySorted_app_le {A} (R : A -> A -> Prop) (l1 l2 : list A) (a b : A) :
  StronglySorted R (l1 ++ l2) -> In a l1 -> In b l2 -> R a b.
Proof.
  induction l1 as [|x l1 IH]; simpl; intros Hs Ha Hb; [tauto|].
  inversion Hs as [|? ? Hs' Hall]; subst.
  destruct Ha as [->|Ha].
  - rewrite Forall_forall in Hall. apply Hall, in_or_app. now right.
  - now apply IH.
Qed.

Lemma left_join_row (cs : list candidate) (ns : list note) (r : row) :
  In r (left_join cs ns) ->
  In (of_c r) cs /\
  ((of_n r = None /\ forall y, In y ns -> n_path y <> c_path (of_c r)) \/
   exists y, of_n r = Some y /\ In y ns /\ n_path y = c_path (of_c r)).
Proof.
  unfold left_join. rewrite in_flat_map. intros (x & Hx & H).
  destruct (filter _ ns) as [|y ys] eqn:E.
  - destruct H as [<-|[]]. simpl. split; [exact Hx|]. left. split; [reflexivity|].
    intros y Hy Hp.
    assert (Hin : In y (filter (fun y => str_eqb (c_path x) (n_path y)) ns)).
    { apply filter_In. split; [exact Hy|]. now apply str_eqb_eq. }
    rewrite E in Hin. destruct Hin.
  - rewrite <- E in H. apply in_map_iff in H as (z & <- & Hz).
    apply filter_In in Hz as [Hz Hp]. apply str_eqb_eq in Hp. simpl.
    split; [exact Hx|]. right. exists z. auto.
Qed.

Lemma left_join_covers (cs : list candidate) (ns : list note) (x : candidate) :
  In x cs -> exists r, In r (left_join cs ns) /\ of_c r = x.
Proof.
  intros Hx. unfold left_join.
  destruct (filter (fun y => str_eqb (c_path x) (n_path y)) ns) as [|y ys] eqn:E.
  - exists {| of_c := x; of_n := None |}. split; [|reflexivity].
    apply in_flat_map. exists x. split; [exact Hx|]. rewrite E. now left.
  - exists {| of_c := x; of_n := Some y |}. split; [|reflexivity].
    apply in_flat_map. exists x. split; [exact Hx|]. rewrite E. now left.
Qed.

Lemma build_results_of_row (rows : list row) (rs : list result) (r : row) :
  build_results rows = Some rs -> In r rows ->
  exists x, In x rs /\ build_result r = Some x.
Proof.
  intros H. apply build_results_Forall2 in H.
  induction H as [|r' y rows rs Hy H IH]; simpl; [tauto|].
  intros [->|Hr].
  - exists y. auto.
  - destruct (IH Hr) as (x & Hx & Hb). exists x. auto.
Qed.

Lemma build_result_fields (r : row) (x : result) :
  build_result r = Some x ->
  chunk_id x = c_chunk_id (of_c r) /\ path x = c_path (of_c r) /\
  heading x = c_heading (of_c r) /\
  snippet x = make_snippet (c_chunk_text (of_c r)) /\
  distance x = c_distance (of_c r) /\
  title x = ncol n_title r /\ folder x = ncol n_folder r /\
  status x = ncol n_status r /\ priority x = ncol n_priority r /\
  due x = ncol n_due r /\ Some (tags x) = make_tags (ncol n_tags r).
Proof.
  unfold build_result. destruct (make_tags _) as [t|]; [|discriminate].
  intros [= <-]. simpl. repeat split.
Qed.







Lemma build_results_rows (rows : list row) (rs : list result) (x : result) :
  build_results rows = Some rs -> In x rs ->
  exists r, In r rows /\ build_result r = Some x.
Proof.
  intros H. apply build_results_Forall2 in H.
  induction H as [|r y rows rs Hy H IH]; simpl; [tauto|].
  intros [<-|Hx].
  - exists r. auto.
  - destruct (IH Hx) as (r' & Hr' & Hb). exists r'. auto.
Qed.


(** ** A folder without a quote is the text of its pattern *)

Lemma sql_literal_unquoted (F : pystr) :
  unquoted (Some F) = true -> sql_literal (F ++ [37%N]) = Some (F ++ [37%N]).
Proof.
  unfold unquoted.
  induction F as [|ch F IH]; intros H; [reflexivity|].
  cbn [forallb] in H. apply andb_true_iff in H as [Hch H].
  cbn [app sql_literal].
  assert (E0 : (ch =? 0)%N = false) by lia.
  assert (E1 : (ch =? 39)%N = false) by lia.
  now rewrite E0, E1, (IH H).
Qed.


Lemma unquoted_closed (folder where_ : option pystr) :
  unquoted folder = true ->
  forallb closed_literal (where_clauses folder where_) = true.
Proof.
  intros H. unfold where_clauses.
  assert (Hw : forallb closed_literal
                 (if truthy where_
                  then match where_ with Some w => [Paren w] | None => [] end
                  else []) = true).
  { destruct where_ as [[|y w]|]; reflexivity. }
  destruct folder as [[|x f]|]; try exact Hw.
  cbn [truthy]. cbv iota.
  change ([FolderLike (x :: f)] ++ ?l) with (FolderLike (x :: f) :: l).
  cbn [forallb closed_literal].
  change (py "%") with [37%N].
  rewrite (sql_literal_unquoted _ H). exact Hw.
Qed.

(** ** The shape of a run *)

Section Shape.

Variable fs : pystr -> option database.
Variable ef : pystr -> option (list Q).
Variable vec_distance : list Q -> list Q -> Q.
Variable sql_where : database -> pystr -> compiled.
Variable k_max : nat.
Variable scan : nat -> reorder candidate.
Variable join_order : reorder row.

Lemma rows_of_ascending (p : row -> option bool) (joined : list row) :
  rows_of join_order
    {| condition := p; appended := []; ordering := Ascending |} joined
  = order_by (fun r => c_distance (of_c r))
      (arrange join_order (filter (holds p) joined)).
Proof. unfold rows_of. simpl. now rewrite app_nil_r. Qed.

(** A run that returned has fetched rows, and built its results from the
    first [n_results] of them. *)
Lemma search_returned_rows query db_path n_results folder where_ rs cn :
  search fs ef vec_distance sql_where k_max scan join_order
    query db_path n_results folder where_
  = Some {| out := Returned rs; conn := cn |} ->
  exists db qv rows,
    fs db_path = Some db /\ ef query = Some qv /\
    execute vec_distance sql_where k_max scan join_order db
      (where_clauses folder where_) qv
      (fetch_limit n_results (where_clauses folder where_)) = Rows rows /\
    build_results (firstn n_results rows) = Some rs /\ cn = Closed.
Proof.
  unfold search.
  destruct (fs db_path) as [db|]; [|discriminate].
  destruct (ef query) as [qv|]; [|discriminate].
  cbv zeta.
  destruct (execute _ _ _ _ _ _ _ _ _) as [rows| | |] eqn:He; try discriminate.
  cbn [conclude].
  destruct (build_results _) as [xs|] eqn:E; [|discriminate].
  intros [= <- <-]. exists db, qv, rows. auto.
Qed.

(** The rows of a statement whose folder stays in its literal. *)
Lemma execute_closed db clauses qv limit rows :
  forallb closed_literal clauses = true ->
  execute vec_distance sql_where k_max scan join_order db clauses qv limit
  = Rows rows ->
  exists p,
    where_sql sql_where db clauses = Pred p /\ rows = kept_rows vec_distance scan join_order db qv limit p.
Proof.
  intros Hc. unfold execute, prepare. rewrite Hc.
  destruct (has_nul clauses); [discriminate|].
  destruct (negb (encodable clauses)); [discriminate|].
  destruct (where_sql sql_where db clauses) as [p| |]; try discriminate.
  destruct (negb (fits_int64 limit)); [discriminate|].
  destruct (negb (accepted k_max db qv limit)); [discriminate|].
  cbv zeta.
  destruct (existsb too_complex clauses && _).
  - destruct clauses as [|cl [|cl' clauses]]; discriminate.
  - intros [= <-]. exists p. split; [reflexivity|]. apply rows_of_ascending.
Qed.

Lemma search_returned query db_path n_results folder where_ rs cn :
  unquoted folder = true ->
  search fs ef vec_distance sql_where k_max scan join_order
    query db_path n_results folder where_
  = Some {| out := Returned rs; conn := cn |} ->
  exists db qv p,
    fs db_path = Some db /\ ef query = Some qv /\
    where_sql sql_where db (where_clauses folder where_) = Pred p /\
    build_results
      (firstn n_results
         (kept_rows vec_distance scan join_order db qv (fetch_limit n_results (where_clauses folder where_)) p))
    = Some rs /\ cn = Closed.
Proof.
  intros Hu H.
  apply search_returned_rows in H as (db & qv & rows & Hdb & Hqv & He & Hb & Hcn).
  apply execute_closed in He as (p & Hp & ->); [|now apply unquoted_closed].
  exists db, qv, p. auto.
Qed.

Lemma search_concludes query db_path n_results folder where_ db qv :
  fs db_path = Some db ->
  ef query = Some qv ->
  search fs ef vec_distance sql_where k_max scan join_order
    query db_path n_results folder where_
  = conclude n_results
      (execute vec_distance sql_where k_max scan join_order db
         (where_clauses folder where_) qv
         (fetch_limit n_results (where_clauses folder where_))).
Proof. unfold search. now intros -> ->. Qed.

Lemma search_rows query db_path n_results folder where_ db qv rows :
  fs db_path = Some db ->
  ef query = Some qv ->
  execute vec_distance sql_where k_max scan join_order db
    (where_clauses folder where_) qv
    (fetch_limit n_results (where_clauses folder where_)) = Rows rows ->
  search fs ef vec_distance sql_where k_max scan join_order
    query db_path n_results folder where_
  = match build_results (firstn n_results rows) with
    | None => Some {| out := Raised JSONDecodeError; conn := Open |}
    | Some results => Some {| out := Returned results; conn := Closed |}
    end.
Proof. unfold search. now intros -> -> ->. Qed.

Lemma kept_rows_sorted db qv limit p :
  StronglySorted (fun a b => (c_distance (of_c a) <= c_distance (of_c b))%Q)
    (kept_rows vec_distance scan join_order db qv limit p).
Proof. apply (order_by_sorted (fun r => c_distance (of_c r))). Qed.

Lemma kept_rows_perm db qv limit p :
  Permutation (kept_rows vec_distance scan join_order db qv limit p)
    (filter (holds p) (left_join (knn vec_distance scan db qv limit) (notes db))).
Proof. unfold kept_rows. now rewrite order_by_perm, arrange_perm. Qed.

Lemma kept_rows_In db qv limit p r :
  In r (kept_rows vec_distance scan join_order db qv limit p) <->
  In r (left_join (knn vec_distance scan db qv limit) (notes db)) /\ p r = Some true.
Proof.
  split.
  - intros H. apply (Permutation_in _ (kept_rows_perm db qv limit p)) in H.
    apply filter_In in H as [H1 H2]. split; [exact H1|].
    unfold holds in H2. destruct (p r) as [[|]|]; congruence.
  - intros [H1 H2].
    apply (Permutation_in _ (Permutation_sym (kept_rows_perm db qv limit p))).
    apply filter_In. split; [exact H1|]. unfold holds. now rewrite H2.
Qed.

Lemma kept_rows_length db qv limit p :
  length (kept_rows vec_distance scan join_order db qv limit p)
  = length (filter (holds p)
              (left_join (knn vec_distance scan db qv limit) (notes db))).
Proof. apply Permutation_length, kept_rows_perm. Qed.

Lemma ranked_perm db qv limit :
  Permutation (ranked vec_distance scan db qv limit) (candidates vec_distance db qv).
Proof. unfold ranked. now rewrite order_by_perm, arrange_perm. Qed.

Lemma ranked_length db qv limit :
  length (ranked vec_distance scan db qv limit) = length (vec_chunks db).
Proof.
  rewrite (Permutation_length (ranked_perm db qv limit)).
  unfold candidates. apply length_map.
Qed.

Lemma knn_firstn db qv limit :
  knn vec_distance scan db qv limit
  = firstn limit (ranked vec_distance scan db qv limit).
Proof. reflexivity. Qed.

Lemma knn_length db qv limit :
  length (knn vec_distance scan db qv limit) = Nat.min limit (length (vec_chunks db)).
Proof. now rewrite knn_firstn, length_firstn, ranked_length. Qed.


Lemma ranked_sorted db qv limit :
  StronglySorted (fun a b => (c_distance a <= c_distance b)%Q)
    (ranked vec_distance scan db qv limit).
Proof. unfold ranked. apply (order_by_sorted c_distance). Qed.

Lemma ranked_chunk db qv limit (x : candidate) :
  In x (ranked vec_distance scan db qv limit) <->
  exists v, In v (vec_chunks db) /\
    x = {| c_chunk_id := v_chunk_id v; c_path := v_path v;
           c_heading := v_heading v; c_chunk_text := v_chunk_text v;
           c_distance := vec_distance (v_embedding v) qv |}.
Proof.
  split.
  - intros H. apply (Permutation_in _ (ranked_perm db qv limit)) in H.
    unfold candidates in H. apply in_map_iff in H as (v & H1 & H2). eauto.
  - intros (v & Hv & ->).
    apply (Permutation_in _ (Permutation_sym (ranked_perm db qv limit))).
    unfold candidates. apply in_map_iff. eauto.
Qed.

Lemma qualifying_pred db qv clauses window p :
  where_sql sql_where db clauses = Pred p ->
  qualifying vec_distance sql_where scan db qv clauses window
  = length (filter (holds p)
              (left_join (knn vec_distance scan db qv window) (notes db))).
Proof. unfold qualifying. now intros ->. Qed.

Lemma search_where_clauses query db_path n_results folder where_ folder' where_' :
  where_clauses folder where_ = where_clauses folder' where_' ->
  search fs ef vec_distance sql_where k_max scan join_order
    query db_path n_results folder where_
  = search fs ef vec_distance sql_where k_max scan join_order
      query db_path n_results folder' where_'.
Proof. unfold search. now intros ->. Qed.

Lemma results_not_farther (rows : list row) (n_results : nat) (rs : list result)
  (r : row) :
  StronglySorted (fun a b => (c_distance (of_c a) <= c_distance (of_c b))%Q) rows ->
  build_results (firstn n_results rows) = Some rs ->
  In r rows ->
  (exists x, In x rs /\ build_result r = Some x) \/
  Forall (fun x => (distance x <= c_distance (of_c r))%Q) rs.
Proof.
  intros Hs Hb Hr. rewrite <- (firstn_skipn n_results rows) in Hr, Hs.
  apply in_app_or in Hr as [Hr|Hr].
  - left. now apply (build_results_of_row _ _ _ Hb).
  - right. apply Forall_forall. intros x Hx.
    destruct (build_results_rows _ _ _ Hb Hx) as (r' & Hr' & Hx').
    rewrite (build_result_distance _ _ Hx').
    exact (StronglySorted_app_le _ _ _ _ _ Hs Hr' Hr).
Qed.

End Shape.

Section Runs.

Variable fs : pystr -> option database.
Variable ef : pystr -> option (list Q).
Variable vec_distance : list Q -> list Q -> Q.
Variable sql_where : database -> pystr -> compiled.
Variable k_max : nat.
Variable scan : nat -> reorder candidate.
Variable join_order : reorder row.

Local Abbreviation search :=
  (search fs ef vec_distance sql_where k_max scan join_order).
Local Abbreviation execute :=
  (execute vec_distance sql_where k_max scan join_order).
Local Abbreviation knn := (knn vec_distance scan).

(** C1. The number of results that [search] returns never exceeds the
    requested [n_results], whatever the filters and the index. *)
Theorem search_at_most_n_results query db_path n_results folder where_ rs cn :
  search query db_path n_results folder where_
  = Some {| out := Returned rs; conn := cn |} ->
  length rs <= n_results.
Proof.
  intros H. apply search_returned_rows in H as (db & qv & rows & _ & _ & _ & H & _).
  apply build_results_length in H. rewrite H, length_firstn. lia.
Qed.


Lemma fetch_limit_given n_results folder where_ :
  fetch_limit n_results (where_clauses folder where_)
  = if given folder || given where_ then 3 * n_results else n_results.
Proof.
  unfold where_clauses, given.
  destruct folder as [[|x f]|], where_ as [[|y w]|]; simpl; lia.
Qed.

(** C4, amended. The window asked of the vector index is three times
    [n_results] when a folder or a condition is given with a text in it, and
    [n_results] when neither is (an empty text counts as none): the statement
    is run with that limit, and the index hands over that many chunks, or all
    it has. *)
Theorem fetch_window query db_path n_results folder where_ db qv :
  fs db_path = Some db ->
  ef query = Some qv ->
  let window := if given folder || given where_ then 3 * n_results else n_results in
  search query db_path n_results folder where_
  = conclude n_results (execute db (where_clauses folder where_) qv window) /\
  length (knn db qv window) = Nat.min window (length (vec_chunks db)).
Proof.
  intros Hdb Hqv window. split.
  - rewrite (search_concludes _ _ _ _ _ _ _ _ _ _ _ _ _ _ Hdb Hqv).
    now rewrite fetch_limit_given.
  - apply knn_length.
Qed.

End Runs.

Lemma written_tags_read (stored : option pystr) :
  written_tags stored -> make_tags stored <> None.
Proof.
  intros [H|(ea & pad & ss & Hp & Hs & ->)]; unfold make_tags.
  - now rewrite H.
  - change (truthy (Some (dumps_tags ea (44%N :: pad) ss))) with true. cbv iota.
    now rewrite loads_dumps_tags by assumption.
Qed.

Lemma written_rows (cs : list candidate) (ns : list note) :
  Forall (fun y => written_tags (n_tags y)) ns ->
  Forall (fun r => make_tags (ncol n_tags r) <> None) (left_join cs ns).
Proof.
  intros H. apply Forall_forall. intros r Hr.
  apply left_join_note in Hr as [Hr|(y & Hr & Hy)]; unfold ncol; rewrite Hr.
  - discriminate.
  - rewrite Forall_forall in H. now apply written_tags_read, H.
Qed.

Section Filters.

Variable fs : pystr -> option database.
Variable ef : pystr -> option (list Q).
Variable vec_distance : list Q -> list Q -> Q.
Variable sql_where : database -> pystr -> compiled.
Variable k_max : nat.
Variable scan : nat -> reorder candidate.
Variable join_order : reorder row.

Local Abbreviation search :=
  (search fs ef vec_distance sql_where k_max scan join_order).
Local Abbreviation execute :=
  (execute vec_distance sql_where k_max scan join_order).
Local Abbreviation where_sql := (where_sql sql_where).
Local Abbreviation knn := (knn vec_distance scan).
Local Abbreviation qualifying := (qualifying vec_distance sql_where scan).


(** C3, amended. With a filter active, a folder text without a quote and
    [n_results] at least one: if [n_results] or more of the rows joined to the
    [3 * n_results] chunks the index hands over pass the filters, then
    [search] returns exactly [n_results] results, provided the statement runs
    and the tags of the notes are stored as lists of texts. Chunks beyond
    that window are not looked at. *)
Theorem search_fills_from_window query db_path n_results folder where_ db qv rows :
  1 <= n_results ->
  given folder || given where_ = true ->
  unquoted folder = true ->
  fs db_path = Some db ->
  ef query = Some qv ->
  execute db (where_clauses folder where_) qv (3 * n_results) = Rows rows ->
  Forall (fun y => written_tags (n_tags y)) (notes db) ->
  n_results <= qualifying db qv (where_clauses folder where_) (3 * n_results) ->
  exists rs,
    search query db_path n_results folder where_
    = Some {| out := Returned rs; conn := Closed |} /\
    length rs = n_results.
Proof.
  intros Hn Hact Hu Hdb Hqv He Htags Hq.
  assert (Hl : fetch_limit n_results (where_clauses folder where_) = 3 * n_results).
  { now rewrite fetch_limit_given, Hact. }
  rewrite <- Hl in He.
  rewrite (search_rows _ _ _ _ _ _ _ _ _ _ _ _ _ _ _ Hdb Hqv He).
  apply execute_closed in He as (p & Hp & ->); [|now apply unquoted_closed].
  rewrite (qualifying_pred _ _ _ _ _ _ _ _ Hp) in Hq.
  rewrite Hl.
  set (kept := kept_rows _ _ _ _ _ _ _).
  assert (Hrows : n_results <= length kept).
  { unfold kept. now rewrite kept_rows_length. }
  destruct (build_results_total (firstn n_results kept)) as [rs Hrs].
  { apply Forall_firstn. apply Forall_forall. intros r Hr.
    unfold kept in Hr. apply kept_rows_In in Hr as [Hr _].
    pose proof (written_rows (knn db qv (3 * n_results)) _ Htags) as Hall.
    rewrite Forall_forall in Hall. now apply (Hall r Hr). }
  rewrite Hrs. exists rs. split; [reflexivity|].
  apply build_results_length in Hrs. rewrite Hrs, length_firstn. lia.
Qed.

End Filters.

(** ** Snippets *)

Lemma str_eqb_refl (s : pystr) : str_eqb s s = true.
Proof.
  induction s as [|x s IH]; simpl; [reflexivity|].
  now rewrite N.eqb_refl.
Qed.

Lemma endswith_app (s p : pystr) : endswith (s ++ p) p = true.
Proof.
  unfold endswith. rewrite length_app.
  replace (length s + length p - length p) with (length s) by lia.
  rewrite skipn_app, skipn_all, Nat.sub_diag. simpl.
  rewrite str_eqb_refl. apply andb_true_iff. split; [|reflexivity].
  apply Nat.leb_le. lia.
Qed.

(** C7, amended. The snippet is at most 303 characters long. It is the first
    300 characters followed by the marker exactly when the text has more than
    300; a text of 300 characters or fewer is its own snippet, unchanged, so
    the snippet ends with the marker when the text has more than 300
    characters or ends with the marker itself. *)
Theorem snippet_bound_and_marker (chunk_text : pystr) :
  length (make_snippet chunk_text) <= 303 /\
  (make_snippet chunk_text = firstn 300 chunk_text ++ marker
   <-> 300 < length chunk_text) /\
  (length chunk_text <= 300 -> make_snippet chunk_text = chunk_text) /\
  endswith (make_snippet chunk_text) marker
  = (300 <? length chunk_text) || endswith chunk_text marker.
Proof.
  assert (Hm : length marker = 3) by reflexivity.
  unfold make_snippet. fold marker.
  destruct (300 <? length chunk_text) eqn:E.
  - apply Nat.ltb_lt in E. repeat split; auto.
    + rewrite length_app, length_firstn. lia.
    + lia.
    + apply endswith_app.
  - apply Nat.ltb_ge in E. repeat split; try lia.
    intros H. apply (f_equal (@length N)) in H.
    rewrite length_app, length_firstn in H. lia.
Qed.

(** C7 as stated fails: a text of 18 characters that ends with three dots is
    its own snippet, which thus carries the marker. *)
Lemma marker_without_truncation :
  endswith (make_snippet (py "to be continued...")) marker = true /\
  (300 <? length (py "to be continued...")) = false.
Proof. split; reflexivity. Qed.

(** C7, amended, at work: a text of 18 characters is its own snippet. *)
Lemma snippet_bound_and_marker_witness :
  make_snippet (py "to be continued...") = py "to be continued...".
Proof.
  apply (proj1 (proj2 (proj2 (snippet_bound_and_marker (py "to be continued..."))))).
  apply Nat.leb_le. reflexivity.
Defined.

(** ** Tags *)

(** C8. Tags stored as a serialized JSON list of texts come out in the result
    as the list of these texts, in order; tags that are absent (NULL, no note
    joined, or the empty text) come out as the empty list. The field is there
    in both cases and is never [PyNone]. *)
Theorem tags_round_trip (r : row) :
  (forall ensure_ascii pad (ss : list pystr),
      forallb is_ws pad = true ->
      forallb (forallb scalar) ss = true ->
      ncol n_tags r = Some (dumps_tags ensure_ascii (44%N :: pad) ss) ->
      exists x, build_result r = Some x /\ tags x = PyList (map PyStr ss)) /\
  (truthy (ncol n_tags r) = false ->
   exists x, build_result r = Some x /\ tags x = PyList []).
Proof.
  split.
  - intros ea pad ss Hp Hs Ht. unfold build_result, make_tags. rewrite Ht.
    change (truthy (Some (dumps_tags ea (44%N :: pad) ss))) with true. cbv iota.
    rewrite loads_dumps_tags by assumption. eauto.
  - intros Ht. unfold build_result, make_tags. rewrite Ht. eauto.
Qed.

(** C8 at work: the tags of [Work/plan.md] are stored as a list of [a] and
    [b] with no blank after the comma; a row without note has the empty list. *)
Lemma tags_round_trip_witness :
  (exists x, build_result demo_row = Some x /\
             tags x = PyList [PyStr (py "a"); PyStr (py "b")]) /\
  (exists x, build_result orphan_row = Some x /\ tags x = PyList []).
Proof.
  split.
  - apply (proj1 (tags_round_trip demo_row) false [] [py "a"; py "b"]);
      reflexivity.
  - apply (proj2 (tags_round_trip orphan_row)). reflexivity.
Defined.

(** ** Examples on the small vault *)

(** C1 at work: two results asked for, two returned. *)
Lemma search_at_most_n_results_witness :
  exists rs,
    demo_search (py "query") (py "vault.db") 2 (Some (py "Work")) None
    = Some {| out := Returned rs; conn := Closed |} /\
    length rs <= 2.
Proof.
  eexists. split.
  - vm_compute. reflexivity.
  - eapply (search_at_most_n_results demo_fs demo_ef sq_distance demo_where 4096
              demo_scan as_they_come
              (py "query") (py "vault.db") 2 (Some (py "Work")) None _ Closed).
    vm_compute. reflexivity.
Defined.


(** C2 fails on the code. The folder text ends its literal with a quote of
    its own, gives the statement an ORDER BY that puts the farthest first, and
    comments the ORDER BY of the code out: of three results the first two are
    at distance 16 and the third at distance 4. *)
Theorem folder_text_reverses_order :
  exists rs,
    demo_search (py "query") (py "vault.db") 3 (Some reversing_folder) None
    = Some {| out := Returned rs; conn := Closed |} /\
    map distance rs = [16; 16; 4]%Q /\
    Qle_bool 16 4 = false.
Proof.
  eexists. split; [|split].
  - vm_compute. reflexivity.
  - reflexivity.
  - reflexivity.
Qed.


(** C6 fails on the code. The folder text ends its literal and adds, with
    UNION ALL, a row of literals to the rows of the join: over the five chunks
    of the vault, nine results asked for, the search with this folder returns
    six results and the search without filters five. *)
Theorem folder_text_adds_a_row :
  (exists rs,
      demo_search (py "query") (py "vault.db") 9 (Some adding_folder) None
      = Some {| out := Returned rs; conn := Closed |} /\
      length rs = 6) /\
  (exists rs0,
      demo_search (py "query") (py "vault.db") 9 None None
      = Some {| out := Returned rs0; conn := Closed |} /\
      length rs0 = 5).
Proof.
  split; eexists; (split; [vm_compute; reflexivity|reflexivity]).
Qed.

(** C3 as stated fails: the one chunk under [Home] is the fourth nearest, the
    window for one result is three chunks, and nothing is returned. *)
Lemma underfill_beyond_window :
  qualifying sq_distance demo_where demo_scan demo_db [5; 0]%Q
    (where_clauses (Some (py "Home")) None) (length (vec_chunks demo_db)) = 1 /\
  demo_ef (py "query") = Some [5; 0]%Q /\
  demo_search (py "query") (py "vault.db") 1 (Some (py "Home")) None
  = Some {| out := Returned []; conn := Closed |}.
Proof. split; [|split]; vm_compute; reflexivity. Qed.

(** C3, amended, at work: two of the six nearest rows are open notes under
    [Work], and two results are asked for. *)
Lemma search_fills_from_window_witness :
  exists rs,
    demo_search (py "query") (py "vault.db") 2 (Some (py "Work"))
      (Some (py "status='open'"))
    = Some {| out := Returned rs; conn := Closed |} /\
    length rs = 2.
Proof.
  eapply (search_fills_from_window demo_fs demo_ef sq_distance demo_where 4096
            demo_scan as_they_come
            (py "query") (py "vault.db") 2 (Some (py "Work"))
            (Some (py "status='open'")) demo_db [5; 0]%Q).
  - lia.
  - reflexivity.
  - reflexivity.
  - reflexivity.
  - reflexivity.
  - vm_compute. reflexivity.
  - apply Forall_cons; [|apply Forall_cons; [|apply Forall_cons;
                                                [|apply Forall_cons; [|apply Forall_nil]]]].
    + right. exists false, [], [py "a"; py "b"]. repeat split; reflexivity.
    + left. reflexivity.
    + left. reflexivity.
    + right. exists false, [], [py "home"]. repeat split; reflexivity.
  - vm_compute. lia.
Defined.

(** C4, amended, at work: with the folder [Work] and two results asked for,
    the statement is run with the limit 6 and the index hands over its five
    chunks. *)
Lemma fetch_window_witness :
  demo_search (py "query") (py "vault.db") 2 (Some (py "Work")) None
  = conclude 2
      (execute sq_distance demo_where 4096 demo_scan as_they_come demo_db
         (where_clauses (Some (py "Work")) None) [5; 0]%Q 6) /\
  length (knn sq_distance demo_scan demo_db [5; 0]%Q 6) = 5.
Proof.
  apply (fetch_window demo_fs demo_ef sq_distance demo_where 4096
           demo_scan as_they_come
           (py "query") (py "vault.db") 2 (Some (py "Work")) None demo_db [5; 0]%Q).
  - reflexivity.
  - reflexivity.
Defined.

(** C4 as stated fails: an empty text for the folder is supplied, yet it is no
    filter to the code. Two results asked for, the window is two chunks, not
    six (which would bring the five there are), and the search is the one
    without a folder. *)
Lemma empty_text_is_no_filter :
  supplied (Some []) = true /\
  fetch_limit 2 (where_clauses (Some []) None) = 2 /\
  length (knn sq_distance demo_scan demo_db [5; 0]%Q
            (fetch_limit 2 (where_clauses (Some []) None))) = 2 /\
  length (knn sq_distance demo_scan demo_db [5; 0]%Q (3 * 2)) = 5 /\
  demo_search (py "query") (py "vault.db") 2 (Some []) None
  = demo_search (py "query") (py "vault.db") 2 None None.
Proof. repeat split; vm_compute; reflexivity. Qed.

(** C5 fails on the code. LIKE reads the underscore of the folder [Work_2024]
    as any character: the note of the folder [Work-2024] is returned, and its
    folder does not start with [Work_2024]. *)
Theorem folder_filter_is_a_pattern :
  exists x,
    In x (results_of
            (demo_search (py "query") (py "vault.db") 2 (Some (py "Work_2024")) None)) /\
    folder x = Some (py "Work-2024") /\
    startswith (py "Work-2024") (py "Work_2024") = false.
Proof.
  eexists. split; [|split].
  - vm_compute. left. reflexivity.
  - reflexivity.
  - reflexivity.
Qed.

(** C9 fails on the code. When the embedding function raises, and when the
    tags of a row are not JSON, the exception leaves [search] with the
    connection open; only the failure of the statement closes it. *)
Theorem connection_left_open :
  search demo_fs down_ef sq_distance demo_where 4096 demo_scan as_they_come
    (py "query") (py "vault.db") 2 None None
  = Some {| out := Raised EmbeddingError; conn := Open |} /\
  demo_search (py "query") (py "broken.db") 2 None None
  = Some {| out := Raised JSONDecodeError; conn := Open |} /\
  demo_search (py "query") (py "vault.db") 2 None (Some (py "status="))
  = Some {| out := SystemExit 1; conn := Closed |}.
Proof. split; [|split]; vm_compute; reflexivity. Qed.

(** C10. Stored tags that are not empty and not JSON make [search] raise the
    decoder's exception while it builds the results: the note of the nearest
    chunk has the tags [not json]. *)
Theorem tags_not_json_raise :
  truthy (Some (py "not json")) = true /\
  loads (py "not json") = None /\
  raw_decode (py "not json") = Stop /\
  demo_search (py "query") (py "broken.db") 1 None None
  = Some {| out := Raised JSONDecodeError; conn := Open |}.
Proof. split; [|split; [|split]]; vm_compute; reflexivity. Qed.

(** ** The filters at work *)

Section Filtering.

Variable fs : pystr -> option database.
Variable ef : pystr -> option (list Q).
Variable vec_distance : list Q -> list Q -> Q.
Variable sql_where : database -> pystr -> compiled.
Variable k_max : nat.
Variable scan : nat -> reorder candidate.
Variable join_order : reorder row.

Local Abbreviation search :=
  (search fs ef vec_distance sql_where k_max scan join_order).
Local Abbreviation knn := (knn vec_distance scan).




(** X3. Without filters, an index of at least [n_results] chunks gives exactly
    [n_results] results. *)
Theorem no_filter_fills query db_path n_results db rs cn :
  fs db_path = Some db ->
  n_results <= length (vec_chunks db) ->
  search query db_path n_results None None
  = Some {| out := Returned rs; conn := cn |} ->
  length rs = n_results.
Proof.
  intros Hdb Hn H.
  apply search_returned in H as (db' & qv & p & Hdb' & _ & Hp & H & _);
    [|reflexivity].
  rewrite Hdb in Hdb'. injection Hdb' as <-.
  simpl in Hp. injection Hp as <-. simpl in H.
  apply build_results_length in H.
  rewrite H, length_firstn, kept_rows_length, filter_holds_true.
  pose proof (left_join_length (knn db qv n_results) (notes db)) as Hj.
  rewrite knn_length in Hj. lia.
Qed.

End Filtering.

(** ** More examples on the small vault *)



(** Three results out of five chunks. *)
Lemma no_filter_fills_witness :
  length (results_of (demo_search (py "query") (py "vault.db") 3 None None)) = 3.
Proof.
  eapply (no_filter_fills demo_fs demo_ef sq_distance demo_where 4096
            demo_scan as_they_come
            (py "query") (py "vault.db") 3 demo_db _ Closed).
  - reflexivity.
  - vm_compute. lia.
  - vm_compute. reflexivity.
Defined.

(** ** More on the runs *)

Section Raising.

Variable fs : pystr -> option database.
Variable ef : pystr -> option (list Q).
Variable vec_distance : list Q -> list Q -> Q.
Variable sql_where : database -> pystr -> compiled.
Variable k_max : nat.
Variable scan : nat -> reorder candidate.
Variable join_order : reorder row.



End Raising.

Section Coverage.

Variable fs : pystr -> option database.
Variable ef : pystr -> option (list Q).
Variable vec_distance : list Q -> list Q -> Q.
Variable sql_where : database -> pystr -> compiled.
Variable k_max : nat.
Variable scan : nat -> reorder candidate.
Variable join_order : reorder row.

Local Abbreviation search :=
  (search fs ef vec_distance sql_where k_max scan join_order).
Local Abbreviation where_sql := (where_sql sql_where).
Local Abbreviation knn := (knn vec_distance scan).
Local Abbreviation ranked := (ranked vec_distance scan).
Local Abbreviation qualifying := (qualifying vec_distance sql_where scan).

(** X5. An empty folder and an empty condition are no filters: the search is the
    search without them, window and all. *)
Theorem empty_filters_are_none query db_path n_results folder where_ :
  filter_active folder where_ = false ->
  search query db_path n_results folder where_
  = search query db_path n_results None None.
Proof.
  intros H. apply search_where_clauses.
  unfold filter_active in H. apply orb_false_iff in H as [Hf Hw].
  unfold where_clauses. now rewrite Hf, Hw.
Qed.



(** X9. Without filters the search is exact over the whole index: a chunk that is
    not among the results is at least as far from the query as every
    result. *)
Theorem unfiltered_search_is_nearest query db_path n_results rs cn db qv v :
  search query db_path n_results None None
  = Some {| out := Returned rs; conn := cn |} ->
  fs db_path = Some db ->
  ef query = Some qv ->
  In v (vec_chunks db) ->
  (exists x, In x rs /\ chunk_id x = v_chunk_id v /\ path x = v_path v /\
             distance x = vec_distance (v_embedding v) qv) \/
  Forall (fun x => (distance x <= vec_distance (v_embedding v) qv)%Q) rs.
Proof.
  intros H Hdb Hqv Hv.
  apply search_returned in H as (db' & qv' & p & Hdb' & Hqv' & Hp & Hb & _);
    [|reflexivity].
  rewrite Hdb in Hdb'. injection Hdb' as <-.
  rewrite Hqv in Hqv'. injection Hqv' as <-.
  simpl in Hp. injection Hp as <-. simpl in Hb.
  set (x0 := {| c_chunk_id := v_chunk_id v; c_path := v_path v;
                c_heading := v_heading v; c_chunk_text := v_chunk_text v;
                c_distance := vec_distance (v_embedding v) qv |}).
  assert (Hx0 : In x0 (ranked db qv n_results)) by (apply ranked_chunk; eauto).
  rewrite <- (firstn_skipn n_results (ranked db qv n_results)) in Hx0.
  apply in_app_or in Hx0 as [Hx0|Hx0].
  - destruct (left_join_covers _ (notes db) _ Hx0) as (r & Hr & Hc).
    assert (Hin : In r (kept_rows vec_distance scan join_order db qv n_results
                          (fun _ => Some true))).
    { apply kept_rows_In. auto. }
    destruct (results_not_farther _ n_results rs r
                (kept_rows_sorted _ _ _ _ _ _ _) Hb Hin)
      as [(x & Hx & Hbx)|Hfar].
    + left. exists x. apply build_result_fields in Hbx as (F1 & F2 & _ & _ & F5 & _).
      rewrite Hc in *. auto.
    + right. now rewrite Hc in Hfar.
  - right. apply Forall_forall. intros x Hx.
    destruct (build_results_rows _ _ _ Hb Hx) as (r & Hr & Hbx).
    rewrite (build_result_distance _ _ Hbx).
    apply In_firstn, kept_rows_In in Hr. destruct Hr as [Hr _].
    apply left_join_row in Hr as [Hr _]. rewrite knn_firstn in Hr.
    pose proof (ranked_sorted vec_distance scan db qv n_results) as Hsorted.
    rewrite <- (firstn_skipn n_results (ranked db qv n_results)) in Hsorted.
    exact (StronglySorted_app_le _ _ _ _ _ Hsorted Hr Hx0).
Qed.



End Coverage.
(** ** LIKE and the case of letters *)

Lemma lower_idem (ch : N) : lower (lower ch) = lower ch.
Proof.
  unfold lower.
  destruct ((65 <=? ch)%N && (ch <=? 90)%N) eqn:E; [|now rewrite E].
  assert (H : ((65 <=? ch + 32)%N && (ch + 32 <=? 90)%N) = false) by lia.
  now rewrite H.
Qed.

Lemma lower_eqb (ch k : N) :
  (k < 65)%N \/ (122 < k)%N \/ (90 < k < 97)%N ->
  (lower ch =? k)%N = (ch =? k)%N.
Proof.
  intros Hk. unfold lower.
  destruct ((65 <=? ch)%N && (ch <=? 90)%N) eqn:E; lia.
Qed.

Lemma like_lower (pattern s : pystr) : like (map lower pattern) s = like pattern s.
Proof.
  revert s. induction pattern as [|p pattern IH]; intros s; [reflexivity|].
  cbn [map like]. rewrite !(lower_eqb p) by lia.
  destruct (p =? 37)%N.
  - induction s as [|x s IHs].
    + now rewrite IH.
    + rewrite IH. f_equal. exact IHs.
  - destruct (p =? 95)%N.
    + destruct s as [|x s]; [reflexivity|apply IH].
    + destruct s as [|x s]; [reflexivity|]. now rewrite lower_idem, IH.
Qed.

Lemma unquoted_lower (F : pystr) :
  unquoted (Some F) = true -> unquoted (Some (map lower F)) = true.
Proof.
  unfold unquoted. rewrite !forallb_forall. intros H ch Hch.
  apply in_map_iff in Hch as (x & <- & Hx). specialize (H x Hx).
  rewrite !(lower_eqb x) by lia. exact H.
Qed.

Lemma nul_lower (s : pystr) : existsb (N.eqb 0) (map lower s) = existsb (N.eqb 0) s.
Proof.
  induction s as [|x s IH]; [reflexivity|]. cbn [map existsb].
  rewrite IH, (N.eqb_sym 0 (lower x)), (N.eqb_sym 0 x), lower_eqb by lia.
  reflexivity.
Qed.

Lemma scalar_lower (s : pystr) : forallb scalar (map lower s) = forallb scalar s.
Proof.
  induction s as [|x s IH]; [reflexivity|]. cbn [map forallb]. rewrite IH.
  f_equal. unfold scalar, lower.
  destruct ((65 <=? x)%N && (x <=? 90)%N) eqn:E; lia.
Qed.

Lemma utf8_length_lower (s : pystr) : utf8_length (map lower s) = utf8_length s.
Proof.
  induction s as [|x s IH]; [reflexivity|].
  unfold utf8_length in *. cbn [map fold_right]. rewrite IH. f_equal.
  unfold utf8_width, lower.
  destruct ((65 <=? x)%N && (x <=? 90)%N) eqn:E; [|reflexivity].
  assert (H1 : (x <? 128)%N = true) by lia.
  assert (H2 : (x + 32 <? 128)%N = true) by lia.
  now rewrite H1, H2.
Qed.

Lemma filter_holds_ext (p q : row -> option bool) (l : list row) :
  (forall r, p r = q r) -> filter (holds p) l = filter (holds q) l.
Proof.
  intros H. apply filter_ext. intros r. unfold holds. now rewrite H.
Qed.

Section Case.

Variable fs : pystr -> option database.
Variable ef : pystr -> option (list Q).
Variable vec_distance : list Q -> list Q -> Q.
Variable sql_where : database -> pystr -> compiled.
Variable k_max : nat.
Variable scan : nat -> reorder candidate.
Variable join_order : reorder row.

Lemma execute_folder_lower db F w qv limit :
  unquoted (Some F) = true ->
  execute vec_distance sql_where k_max scan join_order db
    (where_clauses (Some (map lower F)) w) qv limit
  = execute vec_distance sql_where k_max scan join_order db
      (where_clauses (Some F) w) qv limit.
Proof.
  intros Hu. destruct F as [|ch F]; [reflexivity|].
  pose proof (unquoted_lower _ Hu) as Hu'.
  pose proof (sql_literal_unquoted _ Hu) as Hl.
  pose proof (sql_literal_unquoted _ Hu') as Hl'.
  unfold where_clauses.
  change (truthy (Some (map lower (ch :: F)))) with true.
  change (truthy (Some (ch :: F))) with true. cbv iota.
  set (rest := if truthy w then _ else _).
  change ([FolderLike (map lower (ch :: F))] ++ rest)
    with (FolderLike (map lower (ch :: F)) :: rest).
  change ([FolderLike (ch :: F)] ++ rest) with (FolderLike (ch :: F) :: rest).
  set (G := ch :: F) in *. clearbody G.
  unfold execute.
  assert (H1 : has_nul (FolderLike (map lower G) :: rest)
               = has_nul (FolderLike G :: rest)).
  { unfold has_nul. cbn [existsb clause_text]. f_equal.
    rewrite !existsb_app. now rewrite nul_lower. }
  assert (H2 : encodable (FolderLike (map lower G) :: rest)
               = encodable (FolderLike G :: rest)).
  { unfold encodable. cbn [forallb clause_text]. f_equal.
    rewrite !forallb_app. now rewrite scalar_lower. }
  assert (H3 : existsb too_complex (FolderLike (map lower G) :: rest)
               = existsb too_complex (FolderLike G :: rest)).
  { cbn [existsb too_complex]. change (py "%") with [37%N].
    rewrite Hl, Hl'. f_equal.
    change [37%N] with (map lower [37%N]) at 1.
    now rewrite <- map_app, utf8_length_lower. }
  rewrite H1, H2. clear H1 H2.
  destruct (has_nul (FolderLike G :: rest)); [reflexivity|].
  destruct (negb (encodable (FolderLike G :: rest))); [reflexivity|].
  unfold prepare. cbn [forallb closed_literal]. change (py "%") with [37%N].
  rewrite Hl, Hl'. cbn [andb].
  assert (Hrest : forallb closed_literal rest = true).
  { subst rest. destruct w as [[|y w]|]; reflexivity. }
  rewrite Hrest.
  cbn [where_sql fold_right compile]. change (py "%") with [37%N].
  rewrite Hl, Hl'.
  destruct (fold_right _ _ rest) as [q| |]; cbn [conj]; try reflexivity.
  destruct (negb (fits_int64 limit)); [reflexivity|].
  destruct (negb (accepted k_max db qv limit)); [reflexivity|].
  cbv zeta. rewrite H3.
  destruct (existsb too_complex _ && _); [reflexivity|].
  f_equal. unfold rows_of. cbn [condition appended ordering].
  do 3 f_equal. apply filter_holds_ext. intros r.
  destruct (ncol n_folder r) as [f|]; [|reflexivity].
  cbn [option_map].
  change [37%N] with (map lower [37%N]) at 1.
  now rewrite <- map_app, like_lower.
Qed.

Lemma fetch_limit_folder_lower n_results F w :
  fetch_limit n_results (where_clauses (Some (map lower F)) w)
  = fetch_limit n_results (where_clauses (Some F) w).
Proof. destruct F; reflexivity. Qed.

(** X12. The folder filter does not tell the case of ASCII letters: a folder text
    without a quote and the same text in small letters give the same
    search. *)
Theorem folder_filter_ignores_case query db_path n_results F w :
  unquoted (Some F) = true ->
  search fs ef vec_distance sql_where k_max scan join_order
    query db_path n_results (Some (map lower F)) w
  = search fs ef vec_distance sql_where k_max scan join_order
      query db_path n_results (Some F) w.
Proof.
  intros Hu. unfold search.
  destruct (fs db_path) as [db|]; [|reflexivity].
  destruct (ef query) as [qv|]; [|reflexivity].
  cbv zeta. now rewrite fetch_limit_folder_lower, (execute_folder_lower _ _ _ _ _ Hu).
Qed.

End Case.
(** ** One note for a path *)

Lemma filter_path_unique (p : pystr) (ns : list note) :
  unique_paths ns = true ->
  length (filter (fun y => str_eqb p (n_path y)) ns) <= 1.
Proof.
  induction ns as [|y ns IH]; simpl; intros Hu; [lia|].
  apply andb_true_iff in Hu as [Hy Hu]. apply negb_true_iff in Hy.
  destruct (str_eqb p (n_path y)) eqn:E; [|now apply IH].
  apply str_eqb_eq in E. subst p.
  assert (Hnil : filter (fun z => str_eqb (n_path y) (n_path z)) ns = []).
  { destruct (filter _ ns) as [|z zs] eqn:Ef; [reflexivity|].
    assert (Hz : In z (filter (fun z => str_eqb (n_path y) (n_path z)) ns))
      by (rewrite Ef; now left).
    apply filter_In in Hz as [Hz Hp].
    assert (Hex : existsb (fun z => str_eqb (n_path y) (n_path z)) ns = true)
      by (apply existsb_exists; eauto).
    congruence. }
  rewrite Hnil. simpl. lia.
Qed.

Lemma left_join_unique (cs : list candidate) (ns : list note) :
  unique_paths ns = true -> map of_c (left_join cs ns) = cs.
Proof.
  intros Hnd. induction cs as [|x cs IH]; [reflexivity|].
  unfold left_join in *. cbn [flat_map]. rewrite map_app, IH. clear IH.
  pose proof (filter_path_unique (c_path x) ns Hnd) as H.
  destruct (filter _ ns) as [|y [|z ys]]; simpl in *; try reflexivity. lia.
Qed.

Lemma build_results_map {B} (f : candidate -> B) (g : result -> B)
  (rows : list row) (rs : list result) :
  (forall r x, build_result r = Some x -> g x = f (of_c r)) ->
  build_results rows = Some rs ->
  map g rs = map f (map of_c rows).
Proof.
  intros Hfg H. apply build_results_Forall2 in H.
  induction H as [|r x rows rs Hx H IH]; [reflexivity|].
  simpl. now rewrite (Hfg _ _ Hx), IH.
Qed.

Section Unique.

Variable fs : pystr -> option database.
Variable ef : pystr -> option (list Q).
Variable vec_distance : list Q -> list Q -> Q.
Variable sql_where : database -> pystr -> compiled.
Variable k_max : nat.
Variable scan : nat -> reorder candidate.
Variable join_order : reorder row.

Local Abbreviation search :=
  (search fs ef vec_distance sql_where k_max scan join_order).
Local Abbreviation knn := (knn vec_distance scan).

(** X13. When no two notes have the same path, a search without filters returns
    one result for each of the chunks the index hands over for [n_results]:
    the same chunks at the same distances, whichever way the index and the
    join order them, in ascending order of distance. *)
Theorem unfiltered_results_are_the_nearest query db_path n_results rs cn db qv :
  search query db_path n_results None None
  = Some {| out := Returned rs; conn := cn |} ->
  fs db_path = Some db ->
  ef query = Some qv ->
  unique_paths (notes db) = true ->
  Permutation (map (fun x => (chunk_id x, distance x)) rs)
    (map (fun c => (c_chunk_id c, c_distance c)) (knn db qv n_results)) /\
  ascending rs.
Proof.
  intros H Hdb Hqv Hnd.
  apply search_returned in H as (db' & qv' & p & Hdb' & Hqv' & Hp & H & _);
    [|reflexivity].
  rewrite Hdb in Hdb'. injection Hdb' as <-.
  rewrite Hqv in Hqv'. injection Hqv' as <-.
  simpl in Hp. injection Hp as <-. simpl in H.
  pose proof (left_join_unique (knn db qv n_results) (notes db) Hnd) as Hj.
  pose proof (kept_rows_perm vec_distance scan join_order db qv n_results
                (fun _ => Some true)) as Hk.
  rewrite filter_holds_true in Hk.
  split.
  - rewrite firstn_all2 in H.
    2:{ rewrite (Permutation_length Hk), <- (length_map of_c), Hj, knn_length. lia. }
    rewrite (build_results_map (fun c => (c_chunk_id c, c_distance c))
               (fun x => (chunk_id x, distance x)) _ rs
               (fun r x Hx =>
                  f_equal2 pair (proj1 (build_result_fields r x Hx))
                    (build_result_distance r x Hx)) H).
    apply Permutation_map. rewrite <- Hj. now apply Permutation_map.
  - eapply build_results_ascending; [|exact H].
    apply StronglySorted_firstn, kept_rows_sorted.
Qed.

End Unique.

(** ** The text view *)

Lemma startswith_app (p t : pystr) : startswith (p ++ t) p = true.
Proof.
  induction p as [|x p IH]; [reflexivity|]. simpl. now rewrite N.eqb_refl.
Qed.

Lemma firstn_make_snippet (t : pystr) : firstn 200 (make_snippet t) = firstn 200 t.
Proof.
  unfold make_snippet. destruct (300 <? length t) eqn:E; [|reflexivity].
  apply Nat.ltb_lt in E.
  rewrite firstn_app, length_firstn, firstn_firstn.
  replace (200 - Nat.min 300 (length t)) with 0 by lia.
  simpl. apply app_nil_r.
Qed.

Section TextView.

Variable percent : Q -> pystr.

Lemma entry_length i r :
  length (entry percent i r)
  = 5 + (if truthy (s_status r) then 1 else 0)
    + (match s_distance r with Some _ => 1 | None => 0 end).
Proof.
  unfold entry. destruct (truthy (s_status r)), (s_distance r); reflexivity.
Qed.

Lemma entries_length i rs :
  length (entries percent i rs)
  = 5 * length rs + length (filter (fun r => truthy (s_status r)) rs)
    + length (filter (fun r => match s_distance r with
                               | Some _ => true
                               | None => false
                               end) rs).
Proof.
  revert i. induction rs as [|r rs IH]; intros i; [reflexivity|].
  cbn [entries filter]. rewrite length_app, entry_length, IH.
  destruct (truthy (s_status r)), (s_distance r); simpl; lia.
Qed.

Lemma entries_app i l1 l2 :
  entries percent i (l1 ++ l2)
  = entries percent i l1 ++ entries percent (i + length l1) l2.
Proof.
  revert i. induction l1 as [|r l1 IH]; intros i; cbn [entries app length].
  - now rewrite Nat.add_0_r.
  - rewrite IH, <- app_assoc, Nat.add_succ_r. reflexivity.
Qed.

(** X14. The message for no results is given for the empty list and for no
    other. *)
Theorem no_results_message rs query :
  startswith (format_results percent rs query) (py "No results found for: ") = true
  <-> rs = [].
Proof.
  split.
  - destruct rs as [|r rs]; [reflexivity|]. intros H. exfalso.
    unfold format_results, format_lines in H. cbn [entries] in H.
    unfold entry in H. cbn [app join] in H. discriminate H.
  - intros ->. apply startswith_app.
Qed.

(** X15. The lines of the text view: the heading, and five for each result, one
    more when it has a status, and one more when its distance is not
    [None]. *)
Theorem format_lines_count rs query :
  length (format_lines percent rs query)
  = 1 + 5 * length rs + length (filter (fun r => truthy (s_status r)) rs)
    + length (filter (fun r => match s_distance r with
                               | Some _ => true
                               | None => false
                               end) rs).
Proof. unfold format_lines. cbn [length]. rewrite entries_length. lia. Qed.

(** X16. Results are shown in their order, each under its rank: the result after
    [k] others stands after their lines, numbered [k + 1]. *)
Theorem format_lines_rank l1 r l2 query :
  format_lines percent (l1 ++ r :: l2) query
  = format_lines percent l1 query
    ++ entry percent (S (length l1)) r
    ++ entries percent (S (S (length l1))) l2.
Proof.
  unfold format_lines. rewrite entries_app. reflexivity.
Qed.

(** X17. The preview of a result is the first 200 characters of the text of its
    chunk followed by three dots, whether or not the text is longer. *)
Theorem preview_of_chunk i x (chunk_text : pystr) :
  s_snippet x = make_snippet chunk_text ->
  In (py "   Snippet: " ++ firstn 200 chunk_text ++ py "...") (entry percent i x) /\
  length (firstn 200 chunk_text ++ py "...") <= 203.
Proof.
  intros H. split.
  - unfold entry. rewrite H, firstn_make_snippet.
    apply in_or_app. right. apply in_or_app. right.
    apply in_or_app. right. now left.
  - rewrite length_app, length_firstn. change (length (py "...")) with 3. lia.
Qed.

End TextView.

(** ** Further examples on the small vault *)

(** An empty folder and an empty condition, two results as without them. *)
Lemma empty_filters_are_none_witness :
  demo_search (py "query") (py "vault.db") 2 (Some []) (Some [])
  = demo_search (py "query") (py "vault.db") 2 None None.
Proof.
  apply (empty_filters_are_none demo_fs demo_ef sq_distance demo_where 4096
           demo_scan as_they_come).
  reflexivity.
Defined.



(** Two results without filters: the chunk of [Home/todo.md] is not among
    them, and is not nearer than either. *)
Lemma unfiltered_search_is_nearest_witness :
  (exists x,
      In x (results_of (demo_search (py "query") (py "vault.db") 2 None None)) /\
      chunk_id x = 1%Z /\ path x = py "Home/todo.md" /\
      distance x = sq_distance [9; 0]%Q [5; 0]%Q) \/
  Forall (fun x => (distance x <= sq_distance [9; 0]%Q [5; 0]%Q)%Q)
    (results_of (demo_search (py "query") (py "vault.db") 2 None None)).
Proof.
  apply (unfiltered_search_is_nearest demo_fs demo_ef sq_distance demo_where 4096
           demo_scan as_they_come
           (py "query") (py "vault.db") 2 _ Closed demo_db [5; 0]%Q
           (demo_chunk 1 "Home/todo.md" "buy milk" 9 0)).
  - vm_compute. reflexivity.
  - reflexivity.
  - reflexivity.
  - left. reflexivity.
Defined.



(** [WORK] and [work] find the same. *)
Lemma folder_filter_ignores_case_witness :
  demo_search (py "query") (py "vault.db") 2 (Some (py "work")) None
  = demo_search (py "query") (py "vault.db") 2 (Some (py "WORK")) None.
Proof.
  apply (folder_filter_ignores_case demo_fs demo_ef sq_distance demo_where 4096
           demo_scan as_they_come
           (py "query") (py "vault.db") 2 (py "WORK") None).
  reflexivity.
Defined.

(** The notes of the small vault have four paths; two results, for the
    chunks 4 and 2. *)
Lemma unfiltered_results_are_the_nearest_witness :
  Permutation
    (map (fun x => (chunk_id x, distance x))
       (results_of (demo_search (py "query") (py "vault.db") 2 None None)))
    (map (fun c => (c_chunk_id c, c_distance c))
       (knn sq_distance demo_scan demo_db [5; 0]%Q 2)) /\
  ascending (results_of (demo_search (py "query") (py "vault.db") 2 None None)).
Proof.
  apply (unfiltered_results_are_the_nearest demo_fs demo_ef sq_distance demo_where
           4096 demo_scan as_they_come
           (py "query") (py "vault.db") 2 _ Closed demo_db [5; 0]%Q).
  - vm_compute. reflexivity.
  - reflexivity.
  - reflexivity.
  - vm_compute. reflexivity.
Defined.

(** A text of nine characters is shown whole, and followed by three dots. *)
Lemma preview_of_chunk_witness :
  In (py "   Snippet: " ++ firstn 200 (py "deadlines") ++ py "...")
    (entry demo_percent 1 (shown_of demo_result)) /\
  length (firstn 200 (py "deadlines") ++ py "...") <= 203.
Proof.
  apply (preview_of_chunk demo_percent 1 (shown_of demo_result) (py "deadlines")).
  reflexivity.
Defined.
